(** * A shallow embedding of the e-commerce record service (app.py)

    The service keeps three tables (users, products, orders) and the
    association table order_product.  Every endpoint handler of app.py is a
    function from the request and the database to the database after the
    request and the HTTP response.  The tables are finite maps keyed by the
    primary key; the association table, whose primary key is the pair
    (order_id, product_id), is a finite set of pairs.

    A handler receives what Flask hands it: the path parameters and the
    decoded JSON body ([request.get_json()]); the clock read by
    [datetime.utcnow()] is a parameter of the handler that reads it.  The
    database accepts every row that satisfies the declared keys, unique
    constraint and foreign keys; a violation is the IntegrityError of the
    commit, and an integer that its column cannot hold is another error of
    the engine. *)

From Stdlib Require Import QArith.
From stdpp Require Import gmap strings list fin_maps sorting pretty.

Local Open Scope string_scope.
Local Open Scope Z_scope.
Local Open Scope list_scope.
#[local] Set Warnings "-register-all".

(** ** Request bodies *)

(** What [request.get_json()] yields: a decoded JSON document. *)
Inductive json : Type :=
  | JNull
  | JBool (b : bool)
  | JInt (z : Z)
  | JFloat (q : Q)
  | JStr (s : string)
  | JList (l : list json)
  | JObj (kvs : list (string * json)).

(** Python truthiness of a decoded document, as used by [x or {}]. *)
Definition truthy (v : json) : bool :=
  match v with
  | JNull => false
  | JBool b => b
  | JInt z => negb (Z.eqb z 0)
  | JFloat q => negb (Qeq_bool q 0)
  | JStr s => negb (String.eqb s "")
  | JList l => match l with [] => false | _ => true end
  | JObj kvs => match kvs with [] => false | _ => true end
  end.

(** [x or d] *)
Definition py_or (x d : json) : json := if truthy x then x else d.

(** [d.get(key)] on the items of a decoded object: the decoder keeps the
    last binding of a repeated key. *)
Fixpoint dict_get (key : string) (kvs : list (string * json)) : option json :=
  match kvs with
  | [] => None
  | (k, v) :: rest =>
      match dict_get key rest with
      | Some w => Some w
      | None => if String.eqb k key then Some v else None
      end
  end.

(** [payload.get(key)] where [payload] is any document; only reached on
    objects, since every handler loads the payload through a schema first. *)
Definition json_get (key : string) (payload : json) : option json :=
  match payload with
  | JObj kvs => dict_get key kvs
  | _ => None
  end.

(** Python's [==] between a decoded value and an int ([1 == 1.0] and
    [True == 1] hold; a str never equals an int). *)
Definition json_eq_int (v : json) (i : Z) : bool :=
  match v with
  | JInt z => Z.eqb z i
  | JBool b => Z.eqb (if b then 1 else 0) i
  | JFloat q => Qeq_bool q (inject_Z i)
  | _ => false
  end.

(** ** Rows and the database *)

(** A [datetime], as a point on the time line. *)
Definition datetime := Z.

(** users: name, address (nullable), email (unique); the id is the key. *)
Record User : Type := mkUser {
  name : string;
  address : option string;
  email : string
}.

(** products *)
Record Product : Type := mkProduct {
  product_name : string;
  price : Q
}.

(** orders *)
Record Order : Type := mkOrder {
  order_date : datetime;
  user_id : Z
}.

(** The database: the four tables and the AUTO_INCREMENT counters of the
    three tables with a generated id. *)
Record Store : Type := mkStore {
  users : gmap Z User;
  products : gmap Z Product;
  orders : gmap Z Order;
  order_product : gset (Z * Z);
  next_user_id : Z;
  next_product_id : Z;
  next_order_id : Z
}.

(** [unique=True] on users.email: no two rows share an email. *)
Definition emails_unique (s : Store) : Prop :=
  ∀ i j u v,
    users s !! i = Some u → users s !! j = Some v → email u = email v → i = j.

(** The constraints the tables are declared with: the unique email, the
    three foreign keys, and generated ids that are fresh. *)
Record store_ok (s : Store) : Prop := {
  ok_email_unique : emails_unique s;
  ok_order_user : ∀ i o, orders s !! i = Some o → is_Some (users s !! user_id o);
  ok_link_order : ∀ oid pid, (oid, pid) ∈ order_product s → is_Some (orders s !! oid);
  ok_link_product : ∀ oid pid, (oid, pid) ∈ order_product s → is_Some (products s !! pid);
  ok_next_user : ∀ i, is_Some (users s !! i) → i < next_user_id s;
  ok_next_product : ∀ i, is_Some (products s !! i) → i < next_product_id s;
  ok_next_order : ∀ i, is_Some (orders s !! i) → i < next_order_id s
}.

(** ** Responses *)

(** The JSON body of a response, one constructor per shape the handlers
    build. *)
Inductive body : Type :=
  | Message (m : string)                      (* jsonify({'message': m}) *)
  | Errors (e : list (string * string))       (* jsonify(e.messages) *)
  | ProductsNotFound (missing : list json)    (* f'Products not found: {missing}' *)
  | UserJson (id : Z) (u : User)              (* user_schema.jsonify(user) *)
  | UsersJson (us : list (Z * User))
  | ProductJson (id : Z) (p : Product)
  | ProductsJson (ps : list (Z * Product))
  | OrderJson (id : Z) (o : Order)
  | OrdersJson (os : list (Z * Order))
  | Unhandled (exn : string).                 (* an exception no handler catches *)

(** A response: the body and the HTTP status. *)
Definition response : Type := body * Z.

(** An exception that escapes the view function is answered with status 500. *)
Definition raise (exn : string) : response := (Unhandled exn, 500).

(** ** Schemas (validation of request bodies) *)

(** What app.py takes from its libraries, whose rules are not part of it.
    From marshmallow, the field types of the schemas: the Email syntax
    check, the ISO 8601 parser of [fields.DateTime], the number parsers of
    the Integer and Float fields, and the length check that the auto field
    of the address column (a String(255)) carries. From the database engine
    behind SQLAlchemy, the range of an INTEGER column: a Python int is
    unbounded, the column is not, and the engine refuses a value it cannot
    hold. *)
Class FieldLib : Type := {
  valid_email : string → bool;
  parse_datetime : string → option datetime;
  deser_integer : json → option Z;
  deser_float : json → option Q;
  address_fits : string → bool;
  integer_fits : Z → bool
}.

(** [e.messages]: the offending keys, each with its message. *)
Definition field_errors : Type := list (string * string).

(** One declared field of a schema under [Schema.load]: a key that is absent
    is an error when the field is required and the load is not partial, and
    is left out of the result otherwise; a key that is present is
    deserialised and validated. *)
Definition load_field {A : Type} (key : string) (required : bool)
    (deser : json → string + A) (partial : bool) (kvs : list (string * json))
    : field_errors * option A :=
  match dict_get key kvs with
  | None =>
      if required && negb partial
      then ([(key, "Missing data for required field.")], None)
      else ([], None)
  | Some v =>
      match deser v with
      | inl msg => ([(key, msg)], None)
      | inr a => ([], Some a)
      end
  end.

(** No schema of app.py sets [Meta.unknown], so [Schema.load] keeps the
    library default RAISE: every key of the payload that is not a declared
    field is an error. *)
Definition unknown_fields (declared : list string) (kvs : list (string * json))
    : field_errors :=
  (λ k, (k, "Unknown field.")) <$> filter (λ k, k ∉ declared) kvs.*1.

(** [Schema.load] raises ValidationError with the collected messages when
    there is any, and returns the loaded dict otherwise. *)
Definition load_result {D : Type} (errs : field_errors) (data : D) : field_errors + D :=
  match errs with
  | [] => inr data
  | _ :: _ => inl errs
  end.

Definition string_field (v : json) : string + string :=
  match v with
  | JStr s => inr s
  | JNull => inl "Field may not be null."
  | _ => inl "Not a valid string."
  end.

(** [validate=validate.Length(min=1)] *)
Definition nonempty_field (v : json) : string + string :=
  match string_field v with
  | inl msg => inl msg
  | inr s => if (1 <=? String.length s)%nat then inr s
             else inl "Shorter than minimum length 1."
  end.

Section Schemas.
Context `{lib : FieldLib}.

(** [fields.Email(required=True)] *)
Definition email_field (v : json) : string + string :=
  match string_field v with
  | inl msg => inl msg
  | inr s => if valid_email s then inr s else inl "Not a valid email address."
  end.

(** [ma.auto_field(required=False, allow_none=True)] on users.address *)
Definition address_field (v : json) : string + option string :=
  match v with
  | JNull => inr None
  | _ =>
      match string_field v with
      | inl msg => inl msg
      | inr s => if address_fits s then inr (Some s)
                 else inl "Longer than maximum length 255."
      end
  end.

Definition integer_field (v : json) : string + Z :=
  match v with
  | JNull => inl "Field may not be null."
  | _ =>
      match deser_integer v with
      | Some z => inr z
      | None => inl "Not a valid integer."
      end
  end.

(** The price field with [validate_price]: [if value < 0: raise]. *)
Definition price_field (v : json) : string + Q :=
  match v with
  | JNull => inl "Field may not be null."
  | _ =>
      match deser_float v with
      | Some q => if Qle_bool 0 q then inr q else inl "Price must be non-negative."
      | None => inl "Not a valid number."
      end
  end.

(** [fields.DateTime(required=True)]: an ISO 8601 string becomes a datetime. *)
Definition datetime_field (v : json) : string + datetime :=
  match v with
  | JNull => inl "Field may not be null."
  | JStr s =>
      match parse_datetime s with
      | Some t => inr t
      | None => inl "Not a valid datetime."
      end
  | _ => inl "Not a valid datetime."
  end.

(** What [user_schema.load] returns: the dict of the supplied fields. A field
    is [None] when its key is not in the dict. *)
Record UserData : Type := mkUserData {
  ud_id : option Z;
  ud_name : option string;
  ud_address : option (option string);
  ud_email : option string
}.

Record ProductData : Type := mkProductData {
  pd_id : option Z;
  pd_product_name : option string;
  pd_price : option Q
}.

Record OrderData : Type := mkOrderData {
  od_id : option Z;
  od_order_date : option datetime;
  od_user_id : option Z
}.

(** [UserSchema]: id (auto, generated key, not required), name, email,
    address. *)
Definition UserSchema_load (partial : bool) (payload : json) : field_errors + UserData :=
  match payload with
  | JObj kvs =>
      let '(e1, i) := load_field "id" false integer_field partial kvs in
      let '(e2, n) := load_field "name" true nonempty_field partial kvs in
      let '(e3, a) := load_field "address" false address_field partial kvs in
      let '(e4, m) := load_field "email" true email_field partial kvs in
      load_result
        (e1 ++ e2 ++ e3 ++ e4 ++ unknown_fields ["id"; "name"; "address"; "email"] kvs)
        (mkUserData i n a m)
  | _ => inl [("_schema", "Invalid input type.")]
  end.

(** [ProductSchema]: id, product_name, price. *)
Definition ProductSchema_load (partial : bool) (payload : json) : field_errors + ProductData :=
  match payload with
  | JObj kvs =>
      let '(e1, i) := load_field "id" false integer_field partial kvs in
      let '(e2, n) := load_field "product_name" true nonempty_field partial kvs in
      let '(e3, p) := load_field "price" true price_field partial kvs in
      load_result (e1 ++ e2 ++ e3 ++ unknown_fields ["id"; "product_name"; "price"] kvs)
                  (mkProductData i n p)
  | _ => inl [("_schema", "Invalid input type.")]
  end.

(** [OrderSchema] ([include_fk = True]): id, order_date (declared required),
    user_id (a non-nullable column without default, hence required). The
    products relationship is no field of the schema. *)
Definition OrderSchema_load (partial : bool) (payload : json) : field_errors + OrderData :=
  match payload with
  | JObj kvs =>
      let '(e1, i) := load_field "id" false integer_field partial kvs in
      let '(e2, d) := load_field "order_date" true datetime_field partial kvs in
      let '(e3, u) := load_field "user_id" true integer_field partial kvs in
      load_result (e1 ++ e2 ++ e3 ++ unknown_fields ["id"; "order_date"; "user_id"] kvs)
                  (mkOrderData i d u)
  | _ => inl [("_schema", "Invalid input type.")]
  end.

End Schemas.

(** ** The session *)

(** [select(User).where(User.email == e)] *)
Definition users_with_email (e : string) (s : Store) : list (Z * User) :=
  map_to_list (filter (λ kv, email kv.2 = e) (users s)).

(** [.scalar_one_or_none()]: the row, [None] when there is no row; the outer
    [None] stands for the MultipleResultsFound it raises on two rows or
    more. *)
Definition scalar_one_or_none {A : Type} (rows : list A) : option (option A) :=
  match rows with
  | [] => Some None
  | [r] => Some (Some r)
  | _ => None
  end.

(** [order.products]: the products joined to the order through the
    association table. *)
Definition order_products (oid : Z) (s : Store) : list (Z * Product) :=
  map_to_list (filter (λ kv, (oid, kv.1) ∈ order_product s) (products s)).

(** [product in order.products], for the product with key [pid]. *)
Definition product_in_order (oid pid : Z) (s : Store) : bool :=
  bool_decide (pid ∈ (order_products oid s).*1).

(** [select(Product).where(Product.id.in_(product_ids))] *)
Definition products_with_id_in (product_ids : list json) (s : Store)
    : list (Z * Product) :=
  map_to_list (filter (λ kv, existsb (λ v, json_eq_int v kv.1) product_ids = true)
                      (products s)).

(** [Order.order_date.desc()]: the later order comes first. *)
Definition date_desc (a b : Z * Order) : Prop :=
  order_date b.2 ≤ order_date a.2.

#[global] Instance date_desc_dec a b : Decision (date_desc a b).
Proof. unfold date_desc. apply _. Defined.

(** [select(Order).where(Order.user_id == user_id).order_by(Order.order_date.desc())] *)
Definition orders_of_user (uid : Z) (s : Store) : list (Z * Order) :=
  merge_sort date_desc (map_to_list (filter (λ kv, user_id kv.2 = uid) (orders s))).

(** Writes, as the commit applies them. *)
Definition set_users (f : gmap Z User) (s : Store) : Store :=
  mkStore f (products s) (orders s) (order_product s)
          (next_user_id s) (next_product_id s) (next_order_id s).

Definition set_products (f : gmap Z Product) (s : Store) : Store :=
  mkStore (users s) f (orders s) (order_product s)
          (next_user_id s) (next_product_id s) (next_order_id s).

Definition set_order_product (f : gset (Z * Z)) (s : Store) : Store :=
  mkStore (users s) (products s) (orders s) f
          (next_user_id s) (next_product_id s) (next_order_id s).

(** INSERT of a user row under the next generated id. *)
Definition insert_user (u : User) (s : Store) : Store :=
  mkStore (<[next_user_id s := u]> (users s)) (products s) (orders s)
          (order_product s)
          (next_user_id s + 1) (next_product_id s) (next_order_id s).

(** INSERT of a product row under the next generated id. *)
Definition insert_product (p : Product) (s : Store) : Store :=
  mkStore (users s) (<[next_product_id s := p]> (products s)) (orders s)
          (order_product s)
          (next_user_id s) (next_product_id s + 1) (next_order_id s).

(** [db.session.delete(product)] and the commit: the rows of the association
    table for the product go with it (the table is the [secondary] of
    Product.orders). *)
Definition delete_product_rows (pid : Z) (s : Store) : Store :=
  mkStore (users s) (delete pid (products s)) (orders s)
          (filter (λ l, l.2 ≠ pid) (order_product s))
          (next_user_id s) (next_product_id s) (next_order_id s).

(** INSERT of an order row under the next generated id, with the rows of the
    association table for the products appended to [order.products]. *)
Definition insert_order (o : Order) (pids : list Z) (s : Store) : Store :=
  mkStore (users s) (products s) (<[next_order_id s := o]> (orders s))
          (list_to_set ((λ pid, (next_order_id s, pid)) <$> pids) ∪ order_product s)
          (next_user_id s) (next_product_id s) (next_order_id s + 1).

(** [db.session.delete(user)] and the commit. The relationship User.orders
    is declared with [cascade='all, delete-orphan'], so the orders of the
    user are deleted with the user; deleting an order deletes its rows of
    the association table, which is the [secondary] of Order.products. *)
Definition delete_user_cascade (uid : Z) (s : Store) : Store :=
  mkStore (delete uid (users s)) (products s)
          (filter (λ kv, user_id kv.2 ≠ uid) (orders s))
          (filter (λ l, user_id <$> orders s !! l.1 ≠ Some uid) (order_product s))
          (next_user_id s) (next_product_id s) (next_order_id s).

(** ** The endpoint handlers *)

Section Handlers.
Context `{lib : FieldLib}.

(** POST /users *)
Definition create_user (request_json : json) (s : Store) : Store * response :=
  let data := py_or request_json (JObj []) in
  match UserSchema_load false data with
  | inl e => (s, (Errors e, 400))
  | inr loaded =>
      match ud_email loaded with
      | None => (s, raise "KeyError")
      | Some em =>
          (* unique email *)
          match scalar_one_or_none (users_with_email em s) with
          | None => (s, raise "MultipleResultsFound")
          | Some (Some _) => (s, (Message "Email already exists", 400))
          | Some None =>
              match ud_name loaded with
              | None => (s, raise "KeyError")
              | Some nm =>
                  let user := mkUser nm (default None (ud_address loaded)) em in
                  (insert_user user s, (UserJson (next_user_id s) user, 201))
              end
          end
      end
  end.

(** GET /users/<int:user_id> *)
Definition get_user (uid : Z) (s : Store) : response :=
  match users s !! uid with
  | None => (Message "Invalid user id", 400)
  | Some user => (UserJson uid user, 200)
  end.

(** PUT /users/<int:user_id> (partial updates allowed) *)
Definition update_user (uid : Z) (request_json : json) (s : Store) : Store * response :=
  match users s !! uid with
  | None => (s, (Message "Invalid user id", 400))
  | Some user =>
      match UserSchema_load true (py_or request_json (JObj [])) with
      | inl e => (s, (Errors e, 400))
      | inr payload =>
          (* unique email check if changed *)
          let checked :=
            match ud_email payload with
            | Some em =>
                if bool_decide (em ≠ email user)
                then scalar_one_or_none (users_with_email em s)
                else Some None
            | None => Some None
            end in
          match checked with
          | None => (s, raise "MultipleResultsFound")
          | Some (Some _) => (s, (Message "Email already exists", 400))
          | Some None =>
              let user' :=
                mkUser (default (name user) (ud_name payload))
                       (default (address user) (ud_address payload))
                       (default (email user) (ud_email payload)) in
              (set_users (<[uid := user']> (users s)) s, (UserJson uid user', 200))
          end
      end
  end.

(** DELETE /users/<int:user_id> *)
Definition delete_user (uid : Z) (s : Store) : Store * response :=
  match users s !! uid with
  | None => (s, (Message "Invalid user id", 400))
  | Some _ =>
      (delete_user_cascade uid s,
       (Message ("successfully deleted user " +:+ pretty uid), 200))
  end.

(** GET /users *)
Definition get_users (s : Store) : response :=
  (UsersJson (map_to_list (users s)), 200).

(** POST /products *)
Definition create_product (request_json : json) (s : Store) : Store * response :=
  match ProductSchema_load false (py_or request_json (JObj [])) with
  | inl e => (s, (Errors e, 400))
  | inr data =>
      match pd_product_name data, pd_price data with
      | Some nm, Some pr =>
          let product := mkProduct nm pr in
          (insert_product product s, (ProductJson (next_product_id s) product, 201))
      | _, _ => (s, raise "KeyError")
      end
  end.

(** GET /products *)
Definition get_products (s : Store) : response :=
  (ProductsJson (map_to_list (products s)), 200).

(** GET /products/<int:product_id> *)
Definition get_product (pid : Z) (s : Store) : response :=
  match products s !! pid with
  | None => (Message "Invalid product id", 400)
  | Some product => (ProductJson pid product, 200)
  end.

(** DELETE /products/<int:product_id> *)
Definition delete_product (pid : Z) (s : Store) : Store * response :=
  match products s !! pid with
  | None => (s, (Message "Invalid product id", 400))
  | Some _ =>
      (delete_product_rows pid s,
       (Message ("successfully deleted product " +:+ pretty pid), 200))
  end.

(** PUT /products/<int:product_id> (partial updates allowed) *)
Definition update_product (pid : Z) (request_json : json) (s : Store) : Store * response :=
  match products s !! pid with
  | None => (s, (Message "Invalid product id", 400))
  | Some product =>
      match ProductSchema_load true (py_or request_json (JObj [])) with
      | inl e => (s, (Errors e, 400))
      | inr payload =>
          let product' :=
            mkProduct (default (product_name product) (pd_product_name payload))
                      (default (price product) (pd_price payload)) in
          (set_products (<[pid := product']> (products s)) s,
           (ProductJson pid product', 200))
      end
  end.

(** The loop [for p in products: if p not in order.products:
    order.products.append(p)] on the fresh order, by product key. *)
Definition attach (found : list (Z * Product)) : list Z :=
  foldl (λ acc p, if bool_decide (p.1 ∈ acc) then acc else acc ++ [p.1]) [] found.

(** How [db.session.commit()] ends for a new order: the rows are written,
    or the INSERT raises IntegrityError, or it raises another database
    error. *)
Inductive commit_outcome : Type :=
  | Committed (s' : Store)
  | IntegrityError
  | DataError.

(** [db.session.add(order)] and the commit. A user_id that names a user is
    a key of the users table and the rows are written. A user_id that names
    no user violates the foreign key on orders.user_id, which raises
    IntegrityError, provided the INTEGER column can hold it; for a value out
    of the column's range the engine refuses the INSERT with an error that
    is no IntegrityError. *)
Definition commit_order (o : Order) (pids : list Z) (s : Store) : commit_outcome :=
  match users s !! user_id o with
  | Some _ => Committed (insert_order o pids s)
  | None => if integer_fits (user_id o) then IntegrityError else DataError
  end.

(** The block under [if product_ids:] — the ids that name no product
    ([inl missing]), or else the products to attach to the fresh order. *)
Definition initial_products (product_ids : list json) (s : Store)
    : list json + list Z :=
  match product_ids with
  | [] => inr []
  | _ :: _ =>
      let found := products_with_id_in product_ids s in
      let found_ids := found.*1 in
      match filter (λ pid, existsb (json_eq_int pid) found_ids = false) product_ids with
      | [] => inr (attach found)
      | missing => inl missing
      end
  end.

(** POST /orders, from the point where [order_schema.load(payload)] has
    returned [data]. The value of a DateTime field is a datetime, never a
    str, so the branch under [isinstance(order_date_val, str)] is not taken;
    a datetime is truthy, so [order_date_val or datetime.utcnow()] is the
    loaded value whenever the key is in [data]. *)
Definition create_order_loaded (utcnow : datetime) (payload : json) (data : OrderData)
    (s : Store) : Store * response :=
  let order_date_val := od_order_date data in
  match od_user_id data with
  | None => (s, raise "KeyError")
  | Some uid =>
      let order := mkOrder (default utcnow order_date_val) uid in
      (* (Optional) initial product_ids list *)
      match py_or (default (JList []) (json_get "product_ids" payload)) (JList []) with
      | JList product_ids =>
          match initial_products product_ids s with
          | inl missing => (s, (ProductsNotFound missing, 404))
          | inr pids =>
              match commit_order order pids s with
              | IntegrityError =>
                  (* except IntegrityError: db.session.rollback() *)
                  (s, (Message "Invalid user_id or foreign key constraint failed", 400))
              | DataError => (s, raise "DataError")
              | Committed s' => (s', (OrderJson (next_order_id s) order, 201))
              end
          end
      | _ => (s, (Message "product_ids must be a list of integers", 400))
      end
  end.

(** POST /orders (requires user_id and order_date) *)
Definition create_order (utcnow : datetime) (request_json : json) (s : Store)
    : Store * response :=
  let payload := py_or request_json (JObj []) in
  (* Marshmallow validation *)
  match OrderSchema_load false payload with
  | inl e => (s, (Errors e, 400))
  | inr data => create_order_loaded utcnow payload data s
  end.

(** INSERT of one row of the association table: a second row with the same
    primary key raises IntegrityError ([None]). *)
Definition insert_link (oid pid : Z) (s : Store) : option Store :=
  if bool_decide ((oid, pid) ∈ order_product s) then None
  else Some (set_order_product ({[(oid, pid)]} ∪ order_product s) s).

(** PUT /orders/<int:order_id>/add_product/<int:product_id> *)
Definition add_product_to_order (oid pid : Z) (s : Store) : Store * response :=
  match orders s !! oid, products s !! pid with
  | Some order, Some product =>
      if product_in_order oid pid s
      then (s, (Message "Product already in order", 200))
      else
        match insert_link oid pid s with
        | None => (s, raise "IntegrityError")
        | Some s' => (s', (OrderJson oid order, 200))
        end
  | _, _ => (s, (Message "Invalid order or product id", 400))
  end.

(** DELETE /orders/<int:order_id>/remove_product/<int:product_id> *)
Definition remove_product_from_order (oid pid : Z) (s : Store) : Store * response :=
  match orders s !! oid, products s !! pid with
  | Some order, Some product =>
      if product_in_order oid pid s
      then (set_order_product (order_product s ∖ {[(oid, pid)]}) s,
            (OrderJson oid order, 200))
      else (s, (Message "Product not in order", 404))
  | _, _ => (s, (Message "Invalid order or product id", 400))
  end.

(** GET /orders/user/<int:user_id> *)
Definition get_orders_for_user (uid : Z) (s : Store) : response :=
  (OrdersJson (orders_of_user uid s), 200).

(** GET /orders/<int:order_id>/products *)
Definition get_products_for_order (oid : Z) (s : Store) : response :=
  match orders s !! oid with
  | None => (Message "Invalid order id", 400)
  | Some _ => (ProductsJson (order_products oid s), 200)
  end.

End Handlers.

(** ** The field rules, as a property of the stored rows *)

(** What the schemas check on every write, read on the tables: a user has a
    name of at least one character, an email the Email field accepts and an
    address that fits its column when it has one; a product has a name of at
    least one character and a price that is not negative. *)
Definition rows_valid `{lib : FieldLib} (s : Store) : Prop :=
  (∀ i u, users s !! i = Some u →
     (1 ≤ String.length (name u))%nat ∧ valid_email (email u) = true
     ∧ ∀ a, address u = Some a → address_fits a = true)
  ∧ (∀ i p, products s !! i = Some p →
     (1 ≤ String.length (product_name p))%nat ∧ (0 <= price p)%Q).

(** ** A sample library instance and database *)

(** A stand-in for the library's parsers, for running the handlers on
    concrete requests: an email has an at sign, two timestamps are known,
    an INTEGER column holds a signed 64-bit value. *)
Definition sample_parse_datetime (s : string) : option datetime :=
  if String.eqb s "2025-08-15T14:30:00" then Some 1755268200
  else if String.eqb s "2025-09-01T09:00:00" then Some 1756717200
  else None.

Definition sample_lib : FieldLib := {|
  valid_email := λ s, bool_decide (is_Some (String.index 0 "@" s));
  parse_datetime := sample_parse_datetime;
  deser_integer := λ v, match v with JInt z => Some z | _ => None end;
  deser_float := λ v,
    match v with JInt z => Some (inject_Z z) | JFloat q => Some q | _ => None end;
  address_fits := λ s, (String.length s <=? 255)%nat;
  integer_fits := λ z, (- 2 ^ 63 <=? z) && (z <? 2 ^ 63)
|}.

Definition ada : User := mkUser "Ada" (Some "12 Mill Lane") "ada@example.org".
Definition bob : User := mkUser "Bob" None "bob@example.org".
Definition pen : Product := mkProduct "pen" (3 # 2).
Definition ink : Product := mkProduct "ink" (7 # 1).

(** Two users, two products, three orders (two of Ada's, one of Bob's), with
    pen and ink on order 1 and ink on order 3. *)
Definition sample_store : Store := {|
  users := <[1 := ada]> (<[2 := bob]> ∅);
  products := <[1 := pen]> (<[2 := ink]> ∅);
  orders := <[1 := mkOrder 100 1]> (<[2 := mkOrder 300 1]> (<[3 := mkOrder 200 2]> ∅));
  order_product := {[ (1, 1); (1, 2); (3, 2) ]};
  next_user_id := 3;
  next_product_id := 3;
  next_order_id := 4
|}.

(** * Properties *)

(** ** Request bodies and schemas *)

Lemma py_or_obj kvs : py_or (JObj kvs) (JObj []) = JObj kvs.
Proof. by destruct kvs. Qed.

Lemma py_or_null : py_or JNull (JObj []) = JObj [].
Proof. done. Qed.

Lemma dict_get_key (key : string) (kvs : list (string * json)) :
  is_Some (dict_get key kvs) → key ∈ kvs.*1.
Proof.
  induction kvs as [|[k v] rest IH]; simpl.
  - by intros [? ?].
  - destruct (dict_get key rest) eqn:E.
    + intros _. right. apply IH. eauto.
    + destruct (String.eqb k key) eqn:Ek; [|by intros [? ?]].
      apply String.eqb_eq in Ek as ->. intros _. left.
  Qed.

Lemma load_result_inl {D : Type} (errs : field_errors) (data : D) :
  errs ≠ [] → load_result errs data = inl errs.
Proof. by destruct errs. Qed.

Lemma load_result_inr {D : Type} (errs : field_errors) (data d : D) :
  load_result errs data = inr d → errs = [] ∧ d = data.
Proof. destruct errs; simpl; [|done]. by intros [= ->]. Qed.

Lemma load_field_missing {A : Type} key (deser : json → string + A) kvs :
  dict_get key kvs = None →
  load_field key true deser false kvs
  = ([(key, "Missing data for required field.")], None).
Proof. unfold load_field. by intros ->. Qed.

(** A field whose key is not in the payload is not in the loaded dict. *)
Lemma load_field_absent {A : Type} key required (deser : json → string + A)
    partial kvs errs (a : option A) :
  dict_get key kvs = None →
  load_field key required deser partial kvs = (errs, a) → a = None.
Proof.
  unfold load_field. intros ->.
  destruct (required && negb partial); congruence.
Qed.

(** A loaded field is the deserialised value of its key. *)
Lemma load_field_value {A : Type} key required (deser : json → string + A)
    partial kvs (x : A) :
  (load_field key required deser partial kvs).2 = Some x →
  ∃ v, dict_get key kvs = Some v ∧ deser v = inr x.
Proof.
  unfold load_field. destruct (dict_get key kvs) as [v|].
  - destruct (deser v) eqn:E; simpl; [done|]. intros [= ->]. eauto.
  - by destruct (required && negb partial).
Qed.

(** Closes [key ∉ declared] for a literal key and a literal list. *)
Ltac not_declared :=
  let Hin := fresh in
  intros Hin;
  repeat (apply elem_of_cons in Hin as [Hin|Hin]; [discriminate Hin|]);
  by apply elem_of_nil in Hin.

Lemma unknown_fields_elem key declared kvs :
  is_Some (dict_get key kvs) → key ∉ declared →
  (key, "Unknown field.") ∈ unknown_fields declared kvs.
Proof.
  intros Hk Hd. unfold unknown_fields.
  apply list_elem_of_fmap. exists key. split; [done|].
  apply list_elem_of_filter. split; [done|]. by apply dict_get_key.
Qed.

(** ** Creating orders *)

Section OrderCreation.
Context `{lib : FieldLib}.

Lemma elem_of_app_mid {A : Type} (x : A) (l1 l2 l3 : list A) :
  x ∈ l2 → x ∈ l1 ++ l2 ++ l3.
Proof. intros. apply elem_of_app. right. apply elem_of_app. by left. Qed.

(** [order_date = fields.DateTime(required=True)]: a payload without the key
    does not load. *)
Lemma OrderSchema_load_order_date_required kvs :
  dict_get "order_date" kvs = None →
  ∃ e, OrderSchema_load false (JObj kvs) = inl e
       ∧ ("order_date", "Missing data for required field.") ∈ e.
Proof.
  intros E. simpl.
  destruct (load_field "id" _ _ _ _) as [e1 i].
  rewrite (load_field_missing _ _ _ E).
  destruct (load_field "user_id" _ _ _ _) as [e3 u].
  eexists. split.
  - apply load_result_inl. by destruct e1.
  - apply elem_of_app_mid. left.
Qed.

(** The schema has no field for a key such as product_ids: a payload that
    carries one is refused. *)
Lemma OrderSchema_load_unknown partial key kvs :
  is_Some (dict_get key kvs) → key ∉ ["id"; "order_date"; "user_id"] →
  ∃ e, OrderSchema_load partial (JObj kvs) = inl e ∧ (key, "Unknown field.") ∈ e.
Proof.
  intros Hk Hd. simpl.
  destruct (load_field "id" _ _ _ _) as [e1 i].
  destruct (load_field "order_date" _ _ _ _) as [e2 d].
  destruct (load_field "user_id" _ _ _ _) as [e3 u].
  pose proof (unknown_fields_elem _ _ _ Hk Hd) as Hin.
  eexists. split.
  - apply load_result_inl. intros Hnil. rewrite !app_assoc in Hnil.
    apply app_eq_nil in Hnil as [_ Hnil]. rewrite Hnil in Hin. by apply elem_of_nil in Hin.
  - rewrite !elem_of_app. auto.
Qed.

(** X1: whatever else a CreateOrder request holds, one with a product_ids
    key stops at the schema: status 400 with the validation messages, among
    them "Unknown field." for product_ids, and nothing written. *)
Lemma create_order_product_ids_refused utcnow kvs s :
  is_Some (dict_get "product_ids" kvs) →
  ∃ e, create_order utcnow (JObj kvs) s = (s, (Errors e, 400))
       ∧ ("product_ids", "Unknown field.") ∈ e.
Proof.
  intros Hk. unfold create_order. rewrite py_or_obj.
  destruct (OrderSchema_load_unknown false "product_ids" kvs Hk) as (e & -> & Hin).
  - not_declared.
  - eauto.
Qed.

(** X2: an order is only ever created with the order_date of the request:
    when CreateOrder answers 201, the request holds an order_date and the
    order carries its parsed value, never the current time. *)
Lemma create_order_created_date utcnow kvs s s' id o :
  create_order utcnow (JObj kvs) s = (s', (OrderJson id o, 201)) →
  ∃ v, dict_get "order_date" kvs = Some v ∧ datetime_field v = inr (order_date o).
Proof.
  unfold create_order. rewrite py_or_obj.
  destruct (OrderSchema_load false (JObj kvs)) as [e|d] eqn:El; [done|].
  simpl in El.
  destruct (load_field "id" _ _ _ _) as [e1 i].
  destruct (load_field "order_date" _ _ _ _) as [e2 dt] eqn:Ed.
  destruct (load_field "user_id" _ _ _ _) as [e3 u].
  apply load_result_inr in El as [Hnil ->].
  apply app_eq_nil in Hnil as [_ Hnil]. apply app_eq_nil in Hnil as [-> _].
  unfold create_order_loaded; simpl.
  destruct u as [uid|]; [|done].
  destruct (py_or _ _); try done.
  destruct (initial_products _ _); [done|].
  destruct (commit_order _ _ _); [|done..].
  intros [= <- <- <-]. simpl.
  destruct dt as [t|].
  - apply (load_field_value "order_date" true datetime_field false kvs t).
    by rewrite Ed.
  - unfold load_field in Ed.
    destruct (dict_get "order_date" kvs) as [v|]; [|done].
    destruct (datetime_field v); done.
Qed.

(** X24: a CreateOrder request without an order_date stops at the schema,
    which declares the field required: it is answered with status 400 and
    the validation messages (for a JSON object, the message that order_date
    is missing), and the database is left as it was, so the line that
    defaults the date to the current time is not reached. *)
Theorem create_order_requires_order_date utcnow request_json s :
  json_get "order_date" request_json = None →
  ∃ e, create_order utcnow request_json s = (s, (Errors e, 400))
       ∧ ∀ kvs, py_or request_json (JObj []) = JObj kvs →
                ("order_date", "Missing data for required field.") ∈ e.
Proof.
  intros Hget. unfold create_order.
  destruct (py_or request_json (JObj [])) as [| | | | | |kvs] eqn:Ep;
    try (eexists; split; [reflexivity|]; by intros ? [=]).
  assert (dict_get "order_date" kvs = None) as E.
  { unfold py_or in Ep. destruct (truthy request_json).
    - by subst request_json.
    - by injection Ep as <-. }
  destruct (OrderSchema_load_order_date_required kvs E) as (e & -> & Hin).
  exists e. split; [done|]. by intros ? [= <-].
Qed.

End OrderCreation.

(** Create an order for Ada, who exists, naming no order_date. *)
Lemma create_order_requires_order_date_witness :
  ∃ e, create_order (lib := sample_lib) 1000 (JObj [("user_id", JInt 1)]) sample_store
       = (sample_store, (Errors e, 400)).
Proof.
  destruct (create_order_requires_order_date (lib := sample_lib) 1000
              (JObj [("user_id", JInt 1)]) sample_store) as (e & He & _).
  - reflexivity.
  - by exists e.
Defined.

(** C1, on the code: Ada exists and the request names her and no
    order_date, yet the answer is the validation error with status 400, not
    a created order dated at the current time, and the orders table is what
    it was. The order dated at the current time (here 1000) is what the
    handler would create past the schema, where it reads
    [order_date_val or datetime.utcnow()]. *)
Theorem create_order_no_default_date :
  let payload := JObj [("user_id", JInt 1)] in
  let r := create_order (lib := sample_lib) 1000 payload sample_store in
  is_Some (users sample_store !! 1)
  ∧ r = (sample_store, (Errors [("order_date", "Missing data for required field.")], 400))
  ∧ ¬ (∃ s' id o, r = (s', (OrderJson id o, 201)) ∧ order_date o = 1000)
  ∧ (create_order_loaded (lib := sample_lib) 1000 payload
       (mkOrderData None None (Some 1)) sample_store).2
    = (OrderJson 4 (mkOrder 1000 1), 201).
Proof.
  split; [by eexists|]. split; [reflexivity|]. split; [|reflexivity].
  intros (s' & id & o & Hr & _). vm_compute in Hr. discriminate Hr.
Qed.

(** C2, on the code: pen (1) exists and 99 does not. The request is well
    formed, yet it is not answered with status 404 and the list of missing
    ids: the schema refuses the product_ids key first, so the answer is the
    validation error with status 400. Nothing is written. The 404 with the
    missing id is what the handler would answer past the schema. *)
Theorem create_order_missing_product_at_schema :
  let payload :=
    JObj [("user_id", JInt 1); ("order_date", JStr "2025-08-15T14:30:00");
          ("product_ids", JList [JInt 1; JInt 99])] in
  create_order (lib := sample_lib) 1000 payload sample_store
  = (sample_store, (Errors [("product_ids", "Unknown field.")], 400))
  ∧ create_order_loaded (lib := sample_lib) 1000 payload
      (mkOrderData None (Some 1755268200) (Some 1)) sample_store
    = (sample_store, (ProductsNotFound [JInt 99], 404)).
Proof. split; reflexivity. Qed.

(** C9, on the code: pen (1) and ink (2) both exist and so does Ada, yet
    CreateOrder with product_ids [1, 2], in either order, creates no order:
    the schema refuses the product_ids key, and the order that would have
    been created (id 4) does not exist afterwards. Past the schema the
    handler would have created it with pen and ink attached. *)
Theorem create_order_with_products_at_schema :
  let payload pids :=
    JObj [("user_id", JInt 1); ("order_date", JStr "2025-08-15T14:30:00");
          ("product_ids", JList pids)] in
  let r12 := create_order (lib := sample_lib) 1000 (payload [JInt 1; JInt 2]) sample_store in
  let r21 := create_order (lib := sample_lib) 1000 (payload [JInt 2; JInt 1]) sample_store in
  let past := create_order_loaded (lib := sample_lib) 1000 (payload [JInt 1; JInt 2])
                (mkOrderData None (Some 1755268200) (Some 1)) sample_store in
  r12 = (sample_store, (Errors [("product_ids", "Unknown field.")], 400))
  ∧ r21 = r12
  ∧ get_products_for_order 4 r12.1 = (Message "Invalid order id", 400)
  ∧ past.2 = (OrderJson 4 (mkOrder 1755268200 1), 201)
  ∧ get_products_for_order 4 past.1 = (ProductsJson [(2, ink); (1, pen)], 200).
Proof. repeat split; reflexivity. Qed.

(** ** The association between orders and products *)

Section Association.
Implicit Types (s : Store) (oid pid : Z).

Lemma order_products_lookup oid pid p s :
  (pid, p) ∈ order_products oid s
  ↔ products s !! pid = Some p ∧ (oid, pid) ∈ order_product s.
Proof.
  unfold order_products.
  rewrite elem_of_map_to_list, map_lookup_filter_Some. done.
Qed.

Lemma order_products_keys oid pid s :
  pid ∈ (order_products oid s).*1
  ↔ (oid, pid) ∈ order_product s ∧ is_Some (products s !! pid).
Proof.
  rewrite list_elem_of_fmap. split.
  - intros ([i p] & -> & Hin). apply order_products_lookup in Hin as [? ?]. eauto.
  - intros [Hl [p Hp]]. exists (pid, p). split; [done|].
    by apply order_products_lookup.
Qed.

Lemma order_products_NoDup oid s : NoDup (order_products oid s).*1.
Proof. apply NoDup_fst_map_to_list. Qed.

Lemma product_in_order_spec oid pid s :
  is_Some (products s !! pid) →
  product_in_order oid pid s = bool_decide ((oid, pid) ∈ order_product s).
Proof.
  intros Hp. unfold product_in_order. apply bool_decide_ext.
  rewrite order_products_keys. tauto.
Qed.

Lemma keyed_none {A : Type} (k : Z) (l : list (Z * A)) :
  k ∉ l.*1 → filter (λ r, r.1 = k) l = [].
Proof.
  induction l as [|[i a] l IH]; [done|]. simpl.
  rewrite not_elem_of_cons. intros [Hne Hni].
  rewrite filter_cons. simpl. case_decide; [congruence|]. by apply IH.
Qed.

(** A key that occurs in a list of rows without repeated keys heads exactly
    one row. *)
Lemma keyed_once {A : Type} (k : Z) (l : list (Z * A)) :
  NoDup l.*1 → k ∈ l.*1 → length (filter (λ r, r.1 = k) l) = 1%nat.
Proof.
  induction l as [|[i a] l IH]; simpl.
  - intros _ Hin. by apply elem_of_nil in Hin.
  - rewrite NoDup_cons. intros [Hni Hnd] Hin.
    rewrite filter_cons. simpl. case_decide as Hk.
    + subst i. simpl. by rewrite keyed_none.
    + apply IH; [done|]. apply elem_of_cons in Hin as [?|?]; [congruence|done].
Qed.

Lemma add_product_to_order_present oid pid o s :
  orders s !! oid = Some o → is_Some (products s !! pid) →
  (oid, pid) ∈ order_product s →
  add_product_to_order oid pid s = (s, (Message "Product already in order", 200)).
Proof.
  intros Ho [p Hp] Hl. unfold add_product_to_order. rewrite Ho, Hp.
  rewrite product_in_order_spec by eauto. by rewrite bool_decide_eq_true_2.
Qed.

Lemma add_product_to_order_fresh oid pid o s :
  orders s !! oid = Some o → is_Some (products s !! pid) →
  (oid, pid) ∉ order_product s →
  add_product_to_order oid pid s
  = (set_order_product ({[(oid, pid)]} ∪ order_product s) s, (OrderJson oid o, 200)).
Proof.
  intros Ho [p Hp] Hl. unfold add_product_to_order, insert_link. rewrite Ho, Hp.
  rewrite product_in_order_spec by eauto. by rewrite !bool_decide_eq_false_2.
Qed.

(** C3: AddProductToOrder is idempotent. For an existing order and an
    existing product the first call succeeds, the second call succeeds as a
    no-op ("Product already in order") and leaves the database exactly as
    the first call left it; the link is in the association table, and
    ListProductsForOrder lists the product exactly once. *)
Theorem add_product_to_order_idempotent oid pid s :
  is_Some (orders s !! oid) → is_Some (products s !! pid) →
  let once := add_product_to_order oid pid s in
  let twice := add_product_to_order oid pid once.1 in
  once.2.2 = 200
  ∧ twice.2 = (Message "Product already in order", 200)
  ∧ twice.1 = once.1
  ∧ (oid, pid) ∈ order_product twice.1
  ∧ ∃ ps, get_products_for_order oid twice.1 = (ProductsJson ps, 200)
          ∧ length (filter (λ r, r.1 = pid) ps) = 1%nat.
Proof.
  intros [o Ho] Hp. simpl.
  assert (∃ s1, add_product_to_order oid pid s = (s1, (add_product_to_order oid pid s).2)
                ∧ (add_product_to_order oid pid s).2.2 = 200
                ∧ orders s1 !! oid = Some o ∧ products s1 = products s
                ∧ (oid, pid) ∈ order_product s1) as (s1 & E1 & Hst & Ho1 & Hp1 & Hl1).
  { destruct (decide ((oid, pid) ∈ order_product s)) as [Hl|Hl].
    - exists s. by rewrite (add_product_to_order_present _ _ _ _ Ho Hp Hl).
    - eexists. rewrite (add_product_to_order_fresh _ _ _ _ Ho Hp Hl). simpl.
      repeat split; [done|]. set_solver. }
  rewrite E1. simpl.
  rewrite (add_product_to_order_present oid pid o s1) by (rewrite ?Hp1; done).
  simpl. repeat split; [done..|].
  unfold get_products_for_order. rewrite Ho1. eexists. split; [done|].
  apply keyed_once; [apply order_products_NoDup|].
  apply order_products_keys. by rewrite Hp1.
Qed.


End Association.

(** ** Users *)

Section Users.
Context `{lib : FieldLib}.
Implicit Types (s : Store) (uid : Z) (u : User).

Lemma users_with_email_none e s :
  (∀ i u, users s !! i = Some u → email u ≠ e) → users_with_email e s = [].
Proof.
  intros Hno. unfold users_with_email.
  apply map_to_list_empty_iff. apply map_empty. intros i.
  apply map_lookup_filter_None. right. intros u Hu. simpl. by apply (Hno i).
Qed.

Lemma users_with_email_one e s i u :
  emails_unique s → users s !! i = Some u → email u = e →
  users_with_email e s = [(i, u)].
Proof.
  intros Huniq Hu He. unfold users_with_email.
  rewrite <- map_to_list_singleton. f_equal.
  apply map_eq. intros j. apply option_eq. intros v.
  rewrite map_lookup_filter_Some, lookup_singleton_Some. simpl. split.
  - intros [Hv Hev]. assert (i = j) as <- by (eapply Huniq; eauto; congruence).
    split; congruence.
  - intros [<- <-]. done.
Qed.

(** What a successful load of a user payload holds. *)
Lemma UserSchema_load_inr partial kvs d :
  UserSchema_load partial (JObj kvs) = inr d →
  d = mkUserData (load_field "id" false integer_field partial kvs).2
                 (load_field "name" true nonempty_field partial kvs).2
                 (load_field "address" false address_field partial kvs).2
                 (load_field "email" true email_field partial kvs).2
  ∧ (load_field "name" true nonempty_field partial kvs).1 = []
  ∧ (load_field "email" true email_field partial kvs).1 = [].
Proof.
  simpl.
  destruct (load_field "id" _ _ _ _) as [e1 i].
  destruct (load_field "name" _ _ _ _) as [e2 n].
  destruct (load_field "address" _ _ _ _) as [e3 a].
  destruct (load_field "email" _ _ _ _) as [e4 m].
  intros [Hnil ->]%load_result_inr. simpl.
  apply app_eq_nil in Hnil as [_ Hnil]. apply app_eq_nil in Hnil as [-> Hnil].
  apply app_eq_nil in Hnil as [_ Hnil]. apply app_eq_nil in Hnil as [-> _].
  done.
Qed.

(** A required field is in the dict of a full load. *)
Lemma load_field_required {A : Type} key (deser : json → string + A) kvs :
  (load_field key true deser false kvs).1 = [] →
  is_Some (load_field key true deser false kvs).2.
Proof.
  unfold load_field. destruct (dict_get key kvs) as [v|]; simpl; [|done].
  destruct (deser v); simpl; [done|eauto].
Qed.

Lemma UserSchema_load_required request_json d :
  UserSchema_load false request_json = inr d →
  is_Some (ud_name d) ∧ is_Some (ud_email d).
Proof.
  destruct request_json as [| | | | | |kvs]; try done.
  intros (-> & Hn & He)%UserSchema_load_inr. simpl.
  split; by apply load_field_required.
Qed.

Lemma UserSchema_load_truthy request_json d :
  UserSchema_load false request_json = inr d →
  py_or request_json (JObj []) = request_json.
Proof.
  destruct request_json as [| | | | | |kvs]; try done.
  intros _. apply py_or_obj.
Qed.

Lemma create_user_conflict request_json d e s i u :
  emails_unique s →
  UserSchema_load false request_json = inr d → ud_email d = Some e →
  users s !! i = Some u → email u = e →
  create_user request_json s = (s, (Message "Email already exists", 400)).
Proof.
  intros Huniq Hl He Hu Hue. unfold create_user.
  rewrite (UserSchema_load_truthy _ _ Hl), Hl, He.
  by rewrite (users_with_email_one e s i u).
Qed.

Lemma create_user_fresh request_json d e s :
  UserSchema_load false request_json = inr d → ud_email d = Some e →
  (∀ i u, users s !! i = Some u → email u ≠ e) →
  ∃ u, email u = e
       ∧ create_user request_json s = (insert_user u s, (UserJson (next_user_id s) u, 201)).
Proof.
  intros Hl He Hno. unfold create_user.
  rewrite (UserSchema_load_truthy _ _ Hl), Hl, He.
  rewrite (users_with_email_none e s Hno). simpl.
  destruct (UserSchema_load_required _ _ Hl) as [[nm ->] _].
  eexists. split; [|done]. done.
Qed.

(** The unique constraint survives the insert of a user with a new email. *)
Lemma insert_user_emails_unique u s :
  emails_unique s → (∀ i v, users s !! i = Some v → email v ≠ email u) →
  emails_unique (insert_user u s).
Proof.
  intros Huniq Hno i j a b. unfold insert_user. simpl.
  rewrite !lookup_insert_Some.
  intros [[<- <-]|[Hi Ha]] [[<- <-]|[Hj Hb]] Hab; try done.
  - exfalso. by eapply Hno.
  - exfalso. by eapply Hno.
  - by eapply Huniq.
Qed.

(** C4: CreateUser with an email that a stored user already has fails with
    "Email already exists" (status 400) and writes nothing. Hence, of two
    valid CreateUser requests with the same email, the second always fails
    so and adds no user, and when the email was new the first one succeeds
    (status 201): exactly one of the two creates a user. *)
Theorem create_user_duplicate_email request1 request2 d1 d2 e s :
  emails_unique s →
  UserSchema_load false request1 = inr d1 → ud_email d1 = Some e →
  UserSchema_load false request2 = inr d2 → ud_email d2 = Some e →
  let r1 := create_user request1 s in
  let r2 := create_user request2 r1.1 in
  ((∃ i u, users s !! i = Some u ∧ email u = e) →
     r1 = (s, (Message "Email already exists", 400)))
  ∧ ((∀ i u, users s !! i = Some u → email u ≠ e) →
     r1.2.2 = 201 ∧ ∃ u, email u = e ∧ users r1.1 = <[next_user_id s := u]> (users s))
  ∧ r2 = (r1.1, (Message "Email already exists", 400)).
Proof.
  intros Huniq Hl1 He1 Hl2 He2. simpl.
  assert (Decision (∃ i u, users s !! i = Some u ∧ email u = e)) as [Hex|Hno].
  { destruct (users_with_email e s) as [|[i u] ?] eqn:E.
    - right. intros (i & u & Hu & Hue).
      assert ((i, u) ∈ users_with_email e s) as Hin.
      { apply elem_of_map_to_list, map_lookup_filter_Some. done. }
      rewrite E in Hin. by apply elem_of_nil in Hin.
    - left. exists i, u.
      assert ((i, u) ∈ users_with_email e s) as Hin by (rewrite E; left).
      apply elem_of_map_to_list, map_lookup_filter_Some in Hin. done. }
  - destruct Hex as (i & u & Hu & Hue).
    rewrite (create_user_conflict request1 d1 e s i u) by done. simpl.
    rewrite (create_user_conflict request2 d2 e s i u) by done.
    split; [done|]. split; [|done]. intros Hno. by destruct (Hno i u Hu).
  - assert (∀ i u, users s !! i = Some u → email u ≠ e) as Hno'.
    { intros i u Hu Hue. apply Hno. eauto. }
    destruct (create_user_fresh request1 d1 e s Hl1 He1 Hno') as (u & Hue & ->).
    simpl. split; [by intros ?|]. split; [intros _; eauto|].
    apply (create_user_conflict request2 d2 e _ (next_user_id s) u); try done.
    + apply insert_user_emails_unique; [done|]. by rewrite Hue.
    + apply lookup_insert_eq.
Qed.

End Users.

(** ** Partial updates *)

Section Updates.
Context `{lib : FieldLib}.
Implicit Types (s : Store) (uid pid : Z) (u : User) (p : Product).

Lemma set_users_id uid u s :
  users s !! uid = Some u → set_users (<[uid := u]> (users s)) s = s.
Proof. intros Hu. unfold set_users. rewrite insert_id by done. by destruct s. Qed.

Lemma set_products_id pid p s :
  products s !! pid = Some p → set_products (<[pid := p]> (products s)) s = s.
Proof. intros Hp. unfold set_products. rewrite insert_id by done. by destruct s. Qed.

(** What [update_user] leaves behind: the row of the user, rebuilt from the
    loaded payload, or the database as it was (with the row [u]). *)
Lemma update_user_row uid u kvs s :
  users s !! uid = Some u →
  let r := update_user uid (JObj kvs) s in
  (r.1 = s ∧ r.2.2 ≠ 200)
  ∨ ∃ d, UserSchema_load true (JObj kvs) = inr d
         ∧ let u' := mkUser (default (name u) (ud_name d))
                            (default (address u) (ud_address d))
                            (default (email u) (ud_email d)) in
           r = (set_users (<[uid := u']> (users s)) s, (UserJson uid u', 200)).
Proof.
  intros Hu. cbv zeta. unfold update_user. rewrite Hu, py_or_obj.
  destruct (UserSchema_load true (JObj kvs)) as [e|d] eqn:El; [by left|].
  set (checked := match ud_email d with
                  | Some em =>
                      if bool_decide (em ≠ email u)
                      then scalar_one_or_none (users_with_email em s)
                      else Some None
                  | None => Some None
                  end).
  destruct checked as [[?|]|]; [by left| |by left].
  right. by exists d.
Qed.

(** The partial load of a payload that holds an address and nothing else. *)
Lemma UserSchema_load_address_only v :
  UserSchema_load true (JObj [("address", v)])
  = match address_field v with
    | inl msg => inl [("address", msg)]
    | inr a => inr (mkUserData None None (Some a) None)
    end.
Proof.
  unfold UserSchema_load, load_field. simpl.
  destruct (address_field v); reflexivity.
Qed.

(** C5: UpdateUser changes only what the request supplies. For an existing
    user, every one of name, email and address whose key is not in the
    request keeps its value, every other user and every other table is
    untouched, and a request holding only an address keeps name and email
    and, when the address is valid, answers 200 with the address replaced. *)
Theorem update_user_retains_unsupplied uid u kvs s :
  users s !! uid = Some u →
  let r := update_user uid (JObj kvs) s in
  ∃ u', users r.1 !! uid = Some u'
    ∧ (dict_get "name" kvs = None → name u' = name u)
    ∧ (dict_get "email" kvs = None → email u' = email u)
    ∧ (dict_get "address" kvs = None → address u' = address u)
    ∧ (∀ v, kvs = [("address", v)] →
         name u' = name u ∧ email u' = email u
         ∧ ∀ a, address_field v = inr a →
                address u' = a ∧ r.2 = (UserJson uid u', 200))
    ∧ (∀ j, j ≠ uid → users r.1 !! j = users s !! j)
    ∧ products r.1 = products s ∧ orders r.1 = orders s
    ∧ order_product r.1 = order_product s.
Proof.
  intros Hu. cbv zeta.
  destruct (update_user_row uid u kvs s Hu) as [[Hs Hst]|(d & Hl & Hr)].
  - exists u. rewrite Hs. repeat split; try done.
    all: exfalso; apply Hst; subst kvs.
    all: unfold update_user; rewrite Hu, py_or_obj, UserSchema_load_address_only.
    all: match goal with Ha : address_field _ = inr _ |- _ => rewrite Ha end.
    all: reflexivity.
  - cbv zeta in Hr. rewrite Hr. cbn [fst snd]. eexists.
    unfold set_users; cbn [users products orders order_product].
    rewrite lookup_insert_eq.
    apply UserSchema_load_inr in Hl as (Hd & _ & _).
    split; [done|]. cbn [name address email].
    split. { intros E. subst d. cbn [ud_name].
             by rewrite (load_field_absent _ _ _ _ _ _ _ E (surjective_pairing _)). }
    split. { intros E. subst d. cbn [ud_email].
             by rewrite (load_field_absent _ _ _ _ _ _ _ E (surjective_pairing _)). }
    split. { intros E. subst d. cbn [ud_address].
             by rewrite (load_field_absent _ _ _ _ _ _ _ E (surjective_pairing _)). }
    split. { intros v ->. subst d. cbn [ud_name ud_email ud_address].
             split; [done|]. split; [done|].
             intros a Ha. unfold load_field. simpl. by rewrite Ha. }
    split. { intros j Hj. by rewrite lookup_insert_ne. }
    done.
Qed.

(** C10: an update without fields is the identity. For an existing user,
    UpdateUser with an empty request body (an empty object, or a body that
    is falsy and so replaced by one) answers 200 with the user as stored and
    leaves the whole database as it was; UpdateProduct does the same for an
    existing product. *)
Theorem update_empty_is_identity :
  (∀ uid u request_json s,
     users s !! uid = Some u → truthy request_json = false →
     update_user uid request_json s = (s, (UserJson uid u, 200)))
  ∧ (∀ pid p request_json s,
     products s !! pid = Some p → truthy request_json = false →
     update_product pid request_json s = (s, (ProductJson pid p, 200))).
Proof.
  split.
  - intros uid u request_json s Hu Hf. unfold update_user, py_or.
    rewrite Hu, Hf. simpl. destruct u as [n a e]. simpl.
    by rewrite set_users_id.
  - intros pid p request_json s Hp Hf. unfold update_product, py_or.
    rewrite Hp, Hf. simpl. destruct p as [n q]. simpl.
    by rewrite set_products_id.
Qed.

End Updates.

(** ** Deleting a user *)

Section Deletion.
Implicit Types (s : Store) (uid oid pid : Z).

(** C6: DeleteUser on an existing user succeeds and cascades. Afterwards
    the user is gone, and for every order that belonged to the user the
    order is gone (a lookup of its id is answered "Invalid order id") and no
    row of the association table mentions it. The orders of the other users
    stay, with their rows of the association table. *)
Theorem delete_user_cascades uid s :
  is_Some (users s !! uid) →
  let r := delete_user uid s in
  r.2.2 = 200
  ∧ users r.1 !! uid = None
  ∧ get_user uid r.1 = (Message "Invalid user id", 400)
  ∧ (∀ oid o, orders s !! oid = Some o → user_id o = uid →
       orders r.1 !! oid = None
       ∧ get_products_for_order oid r.1 = (Message "Invalid order id", 400)
       ∧ ∀ pid, (oid, pid) ∉ order_product r.1)
  ∧ (∀ oid o, orders s !! oid = Some o → user_id o ≠ uid →
       orders r.1 !! oid = Some o
       ∧ ∀ pid, (oid, pid) ∈ order_product r.1 ↔ (oid, pid) ∈ order_product s).
Proof.
  intros [u Hu]. simpl. unfold delete_user. rewrite Hu. simpl.
  assert (∀ oid o, orders s !! oid = Some o → user_id o = uid →
            filter (λ kv, user_id kv.2 ≠ uid) (orders s) !! oid = None) as Hgone.
  { intros oid o Ho Huid. apply map_lookup_filter_None. right.
    intros o' Ho'. simpl. rewrite Ho in Ho'. injection Ho' as <-. tauto. }
  split; [done|]. split; [apply lookup_delete_eq|].
  split; [unfold get_user; simpl; by rewrite lookup_delete_eq|].
  split.
  - intros oid o Ho Huid. split; [by eapply Hgone|].
    split; [unfold get_products_for_order; simpl; by erewrite Hgone|].
    intros pid. rewrite elem_of_filter. simpl. rewrite Ho. simpl.
    intros [Hne _]. by subst uid.
  - intros oid o Ho Huid. split.
    + apply map_lookup_filter_Some. done.
    + intros pid. rewrite elem_of_filter. simpl. rewrite Ho. simpl.
      split; [tauto|]. intros ?. split; [congruence|done].
Qed.

End Deletion.

(** ** Listing the orders of a user *)

Section Listing.
Implicit Types (s : Store) (uid oid : Z).

#[local] Instance date_desc_total : Total date_desc.
Proof. intros a b. unfold date_desc. lia. Qed.

#[local] Instance date_desc_trans : Transitive date_desc.
Proof. intros a b c. unfold date_desc. lia. Qed.

Lemma orders_of_user_elem uid oid o s :
  (oid, o) ∈ orders_of_user uid s ↔ orders s !! oid = Some o ∧ user_id o = uid.
Proof.
  unfold orders_of_user. rewrite merge_sort_Permutation.
  rewrite elem_of_map_to_list, map_lookup_filter_Some. done.
Qed.


End Listing.

(** ** The products of a new order, past the schema *)

Section InitialProducts.
Context `{lib : FieldLib}.
Implicit Types (s : Store) (zs : list Z).

Lemma filter_ext_elem {A : Type} (P Q : A → Prop)
    `{!∀ x, Decision (P x), !∀ x, Decision (Q x)} (l : list A) :
  (∀ x, x ∈ l → (P x ↔ Q x)) → filter P l = filter Q l.
Proof.
  induction l as [|a l IH]; [done|]. intros Hl.
  rewrite !filter_cons.
  rewrite IH by (intros x Hx; apply Hl; by right).
  pose proof (Hl a ltac:(left)) as Ha.
  destruct (decide (P a)), (decide (Q a)); tauto.
Qed.

Lemma filter_fmap_pre {A B : Type} (f : A → B) (P : B → Prop)
    `{!∀ y, Decision (P y)} (l : list A) :
  filter P (f <$> l) = f <$> filter (λ x, P (f x)) l.
Proof.
  induction l as [|a l IH]; [done|].
  rewrite fmap_cons, !filter_cons, IH.
  by destruct (decide (P (f a))).
Qed.

Lemma existsb_eq_int_l (z : Z) (ids : list Z) :
  existsb (json_eq_int (JInt z)) ids = true ↔ z ∈ ids.
Proof.
  rewrite existsb_exists. split.
  - intros (i & Hi%list_elem_of_In & ->%Z.eqb_eq). done.
  - intros Hz. exists z. split; [by apply list_elem_of_In|]. apply Z.eqb_refl.
Qed.

Lemma existsb_eq_int_r (i : Z) zs :
  existsb (λ v, json_eq_int v i) (JInt <$> zs) = true ↔ i ∈ zs.
Proof.
  rewrite existsb_exists. split.
  - intros (v & Hv%list_elem_of_In & Heq).
    apply list_elem_of_fmap in Hv as (z & -> & Hz).
    simpl in Heq. by apply Z.eqb_eq in Heq as <-.
  - intros Hi. exists (JInt i). split; [|apply Z.eqb_refl].
    apply list_elem_of_In, list_elem_of_fmap. eauto.
Qed.

Lemma products_with_id_in_keys zs s i :
  i ∈ (products_with_id_in (JInt <$> zs) s).*1
  ↔ is_Some (products s !! i) ∧ i ∈ zs.
Proof.
  unfold products_with_id_in. rewrite list_elem_of_fmap. split.
  - intros ([j p] & -> & Hin).
    apply elem_of_map_to_list, map_lookup_filter_Some in Hin as [Hp Hex].
    simpl in *. split; [eauto|]. by apply existsb_eq_int_r.
  - intros [[p Hp] Hi]. exists (i, p). split; [done|].
    apply elem_of_map_to_list, map_lookup_filter_Some. split; [done|].
    simpl. by apply existsb_eq_int_r.
Qed.

(** The loop that attaches the found products keeps each key once. *)
Lemma attach_from (found : list (Z * Product)) (acc : list Z) :
  NoDup acc →
  let out := foldl (λ acc p, if bool_decide (p.1 ∈ acc) then acc else acc ++ [p.1])
                   acc found in
  NoDup out ∧ ∀ x, x ∈ out ↔ x ∈ acc ∨ x ∈ found.*1.
Proof.
  revert acc. induction found as [|[i p] found IH]; intros acc Hnd; simpl.
  - split; [done|]. intros x. rewrite elem_of_nil. tauto.
  - case_bool_decide as Hin.
    + destruct (IH acc Hnd) as [Hnd' Hel]. split; [done|].
      intros x. rewrite Hel, elem_of_cons. split; [tauto|].
      intros [?|[->|?]]; tauto.
    + assert (NoDup (acc ++ [i])) as Hnd2.
      { apply NoDup_app. split; [done|]. split; [|apply NoDup_singleton].
        intros x Hx ->%list_elem_of_singleton. done. }
      destruct (IH _ Hnd2) as [Hnd' Hel]. split; [done|].
      intros x. rewrite Hel, elem_of_app, list_elem_of_singleton, elem_of_cons.
      tauto.
Qed.

Lemma attach_NoDup found : NoDup (attach found).
Proof. apply (attach_from found []). apply NoDup_nil_2. Qed.

Lemma attach_elem found x : x ∈ attach found ↔ x ∈ found.*1.
Proof.
  destruct (attach_from found [] (NoDup_nil_2)) as [_ Hel].
  unfold attach. rewrite Hel, elem_of_nil. tauto.
Qed.

(** The ids of the request that name no product. *)
Lemma missing_ids zs s :
  filter (λ pid, existsb (json_eq_int pid)
                   (products_with_id_in (JInt <$> zs) s).*1 = false) (JInt <$> zs)
  = JInt <$> filter (λ z, products s !! z = None) zs.
Proof.
  rewrite filter_fmap_pre. f_equal. apply filter_ext_elem. intros z Hz.
  rewrite <- not_true_iff_false, existsb_eq_int_l, products_with_id_in_keys.
  rewrite eq_None_not_Some. tauto.
Qed.

Lemma initial_products_missing zs s :
  (∃ z, z ∈ zs ∧ products s !! z = None) →
  initial_products (JInt <$> zs) s
  = inl (JInt <$> filter (λ z, products s !! z = None) zs).
Proof.
  intros (z & Hz & Hnone). unfold initial_products.
  destruct zs as [|z0 zs']; [by apply elem_of_nil in Hz|].
  change (JInt z0 :: (JInt <$> zs')) with (JInt <$> z0 :: zs').
  rewrite missing_ids.
  assert (z ∈ filter (λ z, products s !! z = None) (z0 :: zs')) as Hin
    by (by apply list_elem_of_filter).
  destruct (filter _ (z0 :: zs')) as [|m ms]; [by apply elem_of_nil in Hin|].
  done.
Qed.

Lemma initial_products_found zs s :
  (∀ z, z ∈ zs → is_Some (products s !! z)) →
  ∃ pids, initial_products (JInt <$> zs) s = inr pids
          ∧ NoDup pids ∧ ∀ pid, pid ∈ pids ↔ pid ∈ zs.
Proof.
  intros Hall. unfold initial_products.
  destruct zs as [|z0 zs'].
  - exists []. split; [done|]. split; [apply NoDup_nil_2|done].
  - change (JInt z0 :: (JInt <$> zs')) with (JInt <$> z0 :: zs').
    rewrite missing_ids.
    assert (filter (λ z, products s !! z = None) (z0 :: zs') = []) as ->.
    { destruct (filter _ (z0 :: zs')) as [|m ms] eqn:E; [done|].
      assert (m ∈ filter (λ z, products s !! z = None) (z0 :: zs')) as Hin
        by (rewrite E; left).
      apply list_elem_of_filter in Hin as [Hnone Hm].
      destruct (Hall m Hm) as [? ?]. congruence. }
    eexists. split; [done|]. split; [apply attach_NoDup|].
    intros pid. rewrite attach_elem, products_with_id_in_keys.
    split; [tauto|]. intros Hp. split; [by apply Hall|done].
Qed.

Lemma py_or_list l : py_or (JList l) (JList []) = JList l.
Proof. by destruct l. Qed.

(** X3: past the schema, CreateOrder checks the product ids before it
    writes. When [data] is a loaded payload and product_ids holds an id that
    names no product, the answer is status 404 with exactly the ids of the
    list that name no product, in the order of the list, and the database is
    unchanged. *)
Theorem create_order_loaded_missing_products utcnow payload data uid zs s :
  od_user_id data = Some uid →
  json_get "product_ids" payload = Some (JList (JInt <$> zs)) →
  (∃ z, z ∈ zs ∧ products s !! z = None) →
  create_order_loaded utcnow payload data s
  = (s, (ProductsNotFound (JInt <$> filter (λ z, products s !! z = None) zs), 404)).
Proof.
  intros Huid Hget Hmiss. unfold create_order_loaded.
  rewrite Huid, Hget. simpl default. rewrite py_or_list.
  by rewrite initial_products_missing.
Qed.

(** X4: past the schema, CreateOrder round-trips the product list. When
    [data] is a loaded payload for an existing user and every id of
    product_ids names a product, the order is created (status 201) and
    ListProductsForOrder on it returns each product of the list once and no
    other, whatever the order and the repetitions of the list. *)
Theorem create_order_loaded_round_trip utcnow payload data uid zs s :
  store_ok s →
  od_user_id data = Some uid → is_Some (users s !! uid) →
  json_get "product_ids" payload = Some (JList (JInt <$> zs)) →
  (∀ z, z ∈ zs → is_Some (products s !! z)) →
  let r := create_order_loaded utcnow payload data s in
  ∃ o, r.2 = (OrderJson (next_order_id s) o, 201)
    ∧ orders r.1 !! next_order_id s = Some o ∧ user_id o = uid
    ∧ ∃ ps, get_products_for_order (next_order_id s) r.1 = (ProductsJson ps, 200)
         ∧ NoDup ps.*1 ∧ ∀ pid, pid ∈ ps.*1 ↔ pid ∈ zs.
Proof.
  intros Hok Huid [u Hu] Hget Hall. cbv zeta. unfold create_order_loaded.
  rewrite Huid, Hget. simpl default. rewrite py_or_list.
  destruct (initial_products_found zs s Hall) as (pids & -> & Hnd & Hel).
  unfold commit_order. cbn [user_id]. rewrite Hu. cbn [fst snd].
  eexists. split; [done|].
  assert (orders (insert_order (mkOrder (default utcnow (od_order_date data)) uid)
                               pids s) !! next_order_id s
          = Some (mkOrder (default utcnow (od_order_date data)) uid)) as Ho
    by apply lookup_insert_eq.
  split; [done|]. split; [done|].
  unfold get_products_for_order. rewrite Ho.
  eexists. split; [done|]. split; [apply order_products_NoDup|].
  intros pid. rewrite order_products_keys. cbn [insert_order order_product products].
  rewrite elem_of_union, elem_of_list_to_set, list_elem_of_fmap. split.
  - intros [[(x & [= <-] & Hx)|Hold] _]; [by apply Hel|].
    destruct (ok_link_order s Hok _ _ Hold) as [o Ho'].
    pose proof (ok_next_order s Hok (next_order_id s) ltac:(eauto)). lia.
  - intros Hz. split; [|by apply Hall]. left. exists pid. split; [done|].
    by apply Hel.
Qed.

End InitialProducts.

(** ** The declared constraints are kept *)

Section Constraints.
Context `{lib : FieldLib}.
Implicit Types (s : Store) (uid oid pid : Z).

Lemma scalar_one_or_none_None {A : Type} (rows : list A) :
  scalar_one_or_none rows = Some None → rows = [].
Proof. by destruct rows as [|? [|? ?]]. Qed.

Lemma users_with_email_nil e s i u :
  users_with_email e s = [] → users s !! i = Some u → email u ≠ e.
Proof.
  intros Hnil Hu He.
  assert ((i, u) ∈ users_with_email e s) as Hin.
  { apply elem_of_map_to_list, map_lookup_filter_Some. done. }
  rewrite Hnil in Hin. by apply elem_of_nil in Hin.
Qed.

Lemma insert_user_ok u s :
  store_ok s → (∀ i v, users s !! i = Some v → email v ≠ email u) →
  store_ok (insert_user u s).
Proof.
  intros Hok Hno. destruct Hok as [Huniq Hou Hlo Hlp Hnu Hnp Hnor].
  split; unfold insert_user; simpl.
  - by apply (insert_user_emails_unique u s).
  - intros i o Ho. apply lookup_insert_is_Some'. right. eauto.
  - done.
  - done.
  - intros i [<-|[? ?]]%lookup_insert_is_Some; [lia|].
    assert (i < next_user_id s) by eauto. lia.
  - done.
  - done.
Qed.

Lemma create_user_ok request_json s :
  store_ok s → store_ok (create_user request_json s).1.
Proof.
  intros Hok. unfold create_user.
  destruct (UserSchema_load false _) as [e|d]; [done|].
  destruct (ud_email d) as [em|]; [|done].
  destruct (scalar_one_or_none _) as [[?|]|] eqn:E; [done| |done].
  destruct (ud_name d) as [nm|]; [|done]. simpl.
  apply insert_user_ok; [done|]. simpl. intros i v Hv.
  by eapply users_with_email_nil, Hv; apply scalar_one_or_none_None.
Qed.

(** Rewriting the row of an existing user keeps the constraints when the
    email stays or moves to one that no user has. *)
Lemma set_user_ok uid u u' s :
  store_ok s → users s !! uid = Some u →
  (email u' = email u ∨ ∀ i v, users s !! i = Some v → email v ≠ email u') →
  store_ok (set_users (<[uid := u']> (users s)) s).
Proof.
  intros Hok Hu Hem. destruct Hok as [Huniq Hou Hlo Hlp Hnu Hnp Hnor].
  split; unfold set_users; simpl; try done.
  - intros i j a b. simpl. rewrite !lookup_insert_Some.
    intros [[<- <-]|[Hi Ha]] [[<- <-]|[Hj Hb]] Hab; try done.
    + destruct Hem as [Hsame|Hnew].
      * apply (Huniq uid j u b); [done..|congruence].
      * exfalso. by eapply Hnew.
    + destruct Hem as [Hsame|Hnew].
      * apply (Huniq i uid a u); [done..|congruence].
      * exfalso. by eapply Hnew.
    + by eapply Huniq.
  - intros i o Ho. apply lookup_insert_is_Some'. right. eauto.
  - intros i [<-|[? ?]]%lookup_insert_is_Some; eauto.
Qed.

Lemma update_user_ok uid request_json s :
  store_ok s → store_ok (update_user uid request_json s).1.
Proof.
  intros Hok. unfold update_user.
  destruct (users s !! uid) as [u|] eqn:Hu; [|done].
  destruct (UserSchema_load true _) as [e|d]; [done|].
  destruct (ud_email d) as [em|] eqn:Hem; simpl.
  - case_bool_decide as Hne.
    + destruct (scalar_one_or_none _) as [[?|]|] eqn:E; [done| |done]. simpl.
      apply (set_user_ok uid u); [done..|]. right. simpl. intros i v Hv.
      by eapply users_with_email_nil, Hv; apply scalar_one_or_none_None.
    + simpl. apply (set_user_ok uid u); [done..|]. left. simpl.
      by destruct (decide (em = email u)).
  - apply (set_user_ok uid u); [done..|]. by left.
Qed.

Lemma delete_user_ok uid s : store_ok s → store_ok (delete_user uid s).1.
Proof.
  intros Hok. unfold delete_user.
  destruct (users s !! uid) as [u|] eqn:Hu; [|done].
  destruct Hok as [Huniq Hou Hlo Hlp Hnu Hnp Hno].
  split; unfold delete_user_cascade; simpl; try done.
  - intros i j a b. simpl. rewrite !lookup_delete_Some.
    intros [_ Ha] [_ Hb]. by apply Huniq.
  - intros i o [Ho Hne]%map_lookup_filter_Some. simpl in Hne.
    rewrite lookup_delete_ne by done. eauto.
  - intros oid pid [Hkeep Hin]%elem_of_filter. simpl in Hkeep.
    destruct (Hlo oid pid Hin) as [o Ho]. exists o.
    apply map_lookup_filter_Some. split; [done|]. simpl.
    rewrite Ho in Hkeep. simpl in Hkeep. congruence.
  - intros oid pid [_ Hin]%elem_of_filter. eauto.
  - intros i [v [_ Hv]%lookup_delete_Some]. eauto.
  - intros i [o [Ho _]%map_lookup_filter_Some]. eauto.
Qed.

Lemma update_product_ok pid request_json s :
  store_ok s → store_ok (update_product pid request_json s).1.
Proof.
  intros Hok. unfold update_product.
  destruct (products s !! pid) as [p|] eqn:Hp; [|done].
  destruct (ProductSchema_load true _) as [e|d]; [done|].
  destruct Hok as [Huniq Hou Hlo Hlp Hnu Hnp Hnor].
  split; unfold set_products; simpl; try done.
  - intros oid i Hin. apply lookup_insert_is_Some'. right. eauto.
  - intros i [<-|[? ?]]%lookup_insert_is_Some; eauto.
Qed.

Lemma create_product_ok request_json s :
  store_ok s → store_ok (create_product request_json s).1.
Proof.
  intros Hok. unfold create_product.
  destruct (ProductSchema_load false _) as [e|d]; [done|].
  destruct (pd_product_name d) as [nm|]; [|done].
  destruct (pd_price d) as [pr|]; [|done]. cbn [fst].
  destruct Hok as [Huniq Hou Hlo Hlp Hnu Hnp Hnor].
  split; unfold insert_product; simpl; try done.
  - intros oid i Hin. apply lookup_insert_is_Some'. right. eauto.
  - intros i [<-|[? ?]]%lookup_insert_is_Some; [lia|].
    assert (i < next_product_id s) by eauto. lia.
Qed.

Lemma delete_product_ok pid s : store_ok s → store_ok (delete_product pid s).1.
Proof.
  intros Hok. unfold delete_product.
  destruct (products s !! pid) as [p|] eqn:Hp; [|done]. cbn [fst].
  destruct Hok as [Huniq Hou Hlo Hlp Hnu Hnp Hnor].
  split; unfold delete_product_rows; simpl; try done.
  - intros oid i [_ Hin]%elem_of_filter. eauto.
  - intros oid i [Hne Hin]%elem_of_filter. simpl in Hne.
    rewrite lookup_delete_ne by done. eauto.
  - intros i [v [_ Hv]%lookup_delete_Some]. eauto.
Qed.

Lemma initial_products_exist product_ids pids s :
  initial_products product_ids s = inr pids →
  ∀ pid, pid ∈ pids → is_Some (products s !! pid).
Proof.
  unfold initial_products. destruct product_ids as [|v vs].
  - intros [= <-] pid Hin. by apply elem_of_nil in Hin.
  - destruct (filter _ _); [|done]. intros [= <-] pid.
    rewrite attach_elem, list_elem_of_fmap. intros ([i p] & -> & Hin).
    unfold products_with_id_in in Hin.
    apply elem_of_map_to_list, map_lookup_filter_Some in Hin as [Hp _]. eauto.
Qed.

Lemma create_order_ok utcnow request_json s :
  store_ok s → store_ok (create_order utcnow request_json s).1.
Proof.
  intros Hok. unfold create_order.
  destruct (OrderSchema_load false _) as [e|d]; [done|].
  unfold create_order_loaded.
  destruct (od_user_id d) as [uid|]; [|done].
  destruct (py_or _ _); try done.
  destruct (initial_products l s) as [missing|pids] eqn:Ei; [done|].
  unfold commit_order. cbn [user_id].
  destruct (users s !! uid) as [u|] eqn:Hu; [|by destruct (integer_fits uid)].
  cbn [fst].
  destruct Hok as [Huniq Hou Hlo Hlp Hnu Hnp Hno].
  split; unfold insert_order; simpl; try done.
  - intros i o [[<- <-]|[? Ho]]%lookup_insert_Some; simpl; eauto.
  - intros oid pid. rewrite elem_of_union, elem_of_list_to_set, list_elem_of_fmap.
    intros [(x & [= -> ->] & Hx)|Hold].
    + rewrite lookup_insert_eq. eauto.
    + apply lookup_insert_is_Some'. right. eauto.
  - intros oid pid. rewrite elem_of_union, elem_of_list_to_set, list_elem_of_fmap.
    intros [(x & [= -> ->] & Hx)|Hold]; [|eauto].
    by eapply initial_products_exist.
  - intros i [<-|[? ?]]%lookup_insert_is_Some; [lia|].
    assert (i < next_order_id s) by eauto. lia.
Qed.

Lemma add_product_to_order_ok oid pid s :
  store_ok s → store_ok (add_product_to_order oid pid s).1.
Proof.
  intros Hok. unfold add_product_to_order.
  destruct (orders s !! oid) as [o|] eqn:Ho; [|done].
  destruct (products s !! pid) as [p|] eqn:Hp; [|done].
  destruct (product_in_order oid pid s); [done|].
  unfold insert_link. case_bool_decide; [done|]. cbn [fst].
  destruct Hok as [Huniq Hou Hlo Hlp Hnu Hnp Hnor].
  split; unfold set_order_product; simpl; try done.
  - intros oid' pid' [[= -> ->]%elem_of_singleton|Hold]%elem_of_union; eauto.
  - intros oid' pid' [[= -> ->]%elem_of_singleton|Hold]%elem_of_union; eauto.
Qed.

Lemma remove_product_from_order_ok oid pid s :
  store_ok s → store_ok (remove_product_from_order oid pid s).1.
Proof.
  intros Hok. unfold remove_product_from_order.
  destruct (orders s !! oid) as [o|] eqn:Ho; [|done].
  destruct (products s !! pid) as [p|] eqn:Hp; [|done].
  destruct (product_in_order oid pid s); [|done]. cbn [fst].
  destruct Hok as [Huniq Hou Hlo Hlp Hnu Hnp Hnor].
  split; unfold set_order_product; simpl; try done.
  - intros oid' pid' [Hold _]%elem_of_difference. eauto.
  - intros oid' pid' [Hold _]%elem_of_difference. eauto.
Qed.

(** X5: every handler that writes keeps the constraints the tables are
    declared with: emails stay unique, every order keeps an existing user,
    every row of the association table an existing order and an existing
    product, and the generated ids stay fresh. *)
Theorem handlers_keep_constraints s :
  store_ok s →
  (∀ request_json, store_ok (create_user request_json s).1)
  ∧ (∀ uid request_json, store_ok (update_user uid request_json s).1)
  ∧ (∀ uid, store_ok (delete_user uid s).1)
  ∧ (∀ request_json, store_ok (create_product request_json s).1)
  ∧ (∀ pid request_json, store_ok (update_product pid request_json s).1)
  ∧ (∀ pid, store_ok (delete_product pid s).1)
  ∧ (∀ utcnow request_json, store_ok (create_order utcnow request_json s).1)
  ∧ (∀ oid pid, store_ok (add_product_to_order oid pid s).1)
  ∧ (∀ oid pid, store_ok (remove_product_from_order oid pid s).1).
Proof.
  intros Hok. split_and!; intros.
  - by apply create_user_ok.
  - by apply update_user_ok.
  - by apply delete_user_ok.
  - by apply create_product_ok.
  - by apply update_product_ok.
  - by apply delete_product_ok.
  - by apply create_order_ok.
  - by apply add_product_to_order_ok.
  - by apply remove_product_from_order_ok.
Qed.

End Constraints.

(** ** The handlers on the sample database *)

Lemma sample_emails_unique : emails_unique sample_store.
Proof.
  intros i j u v. unfold sample_store. simpl.
  rewrite !lookup_insert_Some, !lookup_empty.
  intros [[<- <-]|[? [[<- <-]|[? ?]]]] [[<- <-]|[? [[<- <-]|[? ?]]]]; done.
Qed.

Lemma sample_store_ok : store_ok sample_store.
Proof.
  split; [apply sample_emails_unique|..]; unfold sample_store; simpl.
  - intros i o. rewrite !lookup_insert_Some, !lookup_empty.
    intros [[<- <-]|[? [[<- <-]|[? [[<- <-]|[? ?]]]]]]; first [done|by eexists].
  - intros oid pid. rewrite !elem_of_union, !elem_of_singleton.
    intros [[[= -> ->]|[= -> ->]]|[= -> ->]]; by eexists.
  - intros oid pid. rewrite !elem_of_union, !elem_of_singleton.
    intros [[[= -> ->]|[= -> ->]]|[= -> ->]]; by eexists.
  - intros i [u Hu]. revert Hu. rewrite !lookup_insert_Some, !lookup_empty.
    intros [[<- _]|[? [[<- _]|[? ?]]]]; done.
  - intros i [u Hu]. revert Hu. rewrite !lookup_insert_Some, !lookup_empty.
    intros [[<- _]|[? [[<- _]|[? ?]]]]; done.
  - intros i [u Hu]. revert Hu. rewrite !lookup_insert_Some, !lookup_empty.
    intros [[<- _]|[? [[<- _]|[? [[<- _]|[? ?]]]]]]; done.
Qed.

Lemma sample_no_eve i u :
  users sample_store !! i = Some u → email u ≠ "eve@example.org".
Proof.
  unfold sample_store. simpl. rewrite !lookup_insert_Some, !lookup_empty.
  intros [[_ <-]|[? [[_ <-]|[? ?]]]]; done.
Qed.

(** Ink (2) is added to order 2 of Ada twice. *)
Lemma add_product_to_order_idempotent_witness :
  let once := add_product_to_order 2 2 sample_store in
  let twice := add_product_to_order 2 2 once.1 in
  twice.2 = (Message "Product already in order", 200) ∧ twice.1 = once.1.
Proof.
  destruct (add_product_to_order_idempotent 2 2 sample_store) as (_ & H2 & H3 & _).
  - by eexists.
  - by eexists.
  - by split.
Defined.

(** Eve registers twice with an email that nobody has yet. *)
Lemma create_user_duplicate_email_witness :
  let request := JObj [("name", JStr "Eve"); ("email", JStr "eve@example.org")] in
  let r1 := create_user (lib := sample_lib) request sample_store in
  let r2 := create_user (lib := sample_lib) request r1.1 in
  r1.2.2 = 201 ∧ r2 = (r1.1, (Message "Email already exists", 400)).
Proof.
  intros request.
  destruct (create_user_duplicate_email (lib := sample_lib) request request
              (mkUserData None (Some "Eve") None (Some "eve@example.org"))
              (mkUserData None (Some "Eve") None (Some "eve@example.org"))
              "eve@example.org" sample_store) as (_ & H1 & H2).
  - apply sample_emails_unique.
  - reflexivity.
  - reflexivity.
  - reflexivity.
  - reflexivity.
  - split; [|exact H2]. apply H1, sample_no_eve.
Defined.

(** Ada moves: the request holds an address and nothing else. *)
Lemma update_user_retains_unsupplied_witness :
  ∃ u', users (update_user (lib := sample_lib) 1
                 (JObj [("address", JStr "5 New Road")]) sample_store).1 !! 1 = Some u'
        ∧ name u' = "Ada" ∧ email u' = "ada@example.org"
        ∧ address u' = Some "5 New Road".
Proof.
  destruct (update_user_retains_unsupplied (lib := sample_lib) 1 ada
              [("address", JStr "5 New Road")] sample_store)
    as (u' & Hu' & _ & _ & _ & Hv & _).
  - reflexivity.
  - destruct (Hv (JStr "5 New Road") eq_refl) as (Hn & He & Ha).
    destruct (Ha (Some "5 New Road") eq_refl) as [Ha' _].
    exists u'. by repeat split.
Defined.

(** Ada, who owns orders 1 and 2, is deleted. *)
Lemma delete_user_cascades_witness :
  let r := delete_user 1 sample_store in
  (orders r.1) !! 1 = None ∧ (orders r.1) !! 2 = None
  ∧ ((1, 1) ∉ order_product r.1) ∧ ((1, 2) ∉ order_product r.1)
  ∧ (3, 2) ∈ order_product r.1.
Proof.
  destruct (delete_user_cascades 1 sample_store) as (_ & _ & _ & Hgone & Hstay).
  - by eexists.
  - destruct (Hgone 1 (mkOrder 100 1) eq_refl eq_refl) as (H1 & _ & Hl1).
    destruct (Hgone 2 (mkOrder 300 1) eq_refl eq_refl) as (H2 & _ & _).
    destruct (Hstay 3 (mkOrder 200 2) eq_refl ltac:(done)) as (_ & Hl3).
    cbv zeta.
    split; [done|]. split; [done|]. split; [apply Hl1|]. split; [apply Hl1|].
    apply Hl3. unfold sample_store. simpl.
    rewrite !elem_of_union, !elem_of_singleton. by right.
Defined.



(** Ada and the pen are updated with an empty object. *)
Lemma update_empty_is_identity_witness :
  update_user (lib := sample_lib) 1 (JObj []) sample_store
  = (sample_store, (UserJson 1 ada, 200))
  ∧ update_product (lib := sample_lib) 1 (JObj []) sample_store
    = (sample_store, (ProductJson 1 pen, 200)).
Proof.
  destruct (update_empty_is_identity (lib := sample_lib)) as [Hu Hp].
  split; [apply Hu|apply Hp]; reflexivity.
Defined.

(** An order for Ada with the pen and a product that does not exist. *)
Lemma create_order_product_ids_refused_witness :
  ∃ e, create_order (lib := sample_lib) 1000
         (JObj [("user_id", JInt 1); ("order_date", JStr "2025-08-15T14:30:00");
                ("product_ids", JList [JInt 1; JInt 99])]) sample_store
       = (sample_store, (Errors e, 400))
       ∧ ("product_ids", "Unknown field.") ∈ e.
Proof.
  apply (create_order_product_ids_refused (lib := sample_lib)). by eexists.
Defined.

(** An order for Ada, dated in the request. *)
Lemma create_order_created_date_witness :
  ∃ v, dict_get "order_date"
         [("user_id", JInt 1); ("order_date", JStr "2025-08-15T14:30:00")] = Some v
       ∧ datetime_field (lib := sample_lib) v = inr 1755268200.
Proof.
  apply (create_order_created_date (lib := sample_lib) 1000
           [("user_id", JInt 1); ("order_date", JStr "2025-08-15T14:30:00")]
           sample_store
           (insert_order (mkOrder 1755268200 1) [] sample_store)
           4 (mkOrder 1755268200 1)).
  reflexivity.
Defined.

(** Past the schema: the pen exists, products 99 and 98 do not. *)
Lemma create_order_loaded_missing_products_witness :
  create_order_loaded (lib := sample_lib) 1000
    (JObj [("product_ids", JList [JInt 99; JInt 1; JInt 98])])
    (mkOrderData None (Some 5) (Some 1)) sample_store
  = (sample_store, (ProductsNotFound [JInt 99; JInt 98], 404)).
Proof.
  rewrite (create_order_loaded_missing_products (lib := sample_lib) 1000
             (JObj [("product_ids", JList [JInt 99; JInt 1; JInt 98])])
             (mkOrderData None (Some 5) (Some 1)) 1 [99; 1; 98] sample_store).
  - reflexivity.
  - reflexivity.
  - reflexivity.
  - exists 99. split; [left|reflexivity].
Defined.

(** Past the schema: ink, pen and ink again on a new order for Ada. *)
Lemma create_order_loaded_round_trip_witness :
  let r := create_order_loaded (lib := sample_lib) 1000
             (JObj [("product_ids", JList [JInt 2; JInt 1; JInt 2])])
             (mkOrderData None (Some 5) (Some 1)) sample_store in
  ∃ ps, get_products_for_order 4 r.1 = (ProductsJson ps, 200)
        ∧ NoDup ps.*1 ∧ ∀ pid, pid ∈ ps.*1 ↔ pid ∈ [2; 1; 2].
Proof.
  destruct (create_order_loaded_round_trip (lib := sample_lib) 1000
              (JObj [("product_ids", JList [JInt 2; JInt 1; JInt 2])])
              (mkOrderData None (Some 5) (Some 1)) 1 [2; 1; 2] sample_store)
    as (o & _ & _ & _ & Hps).
  - apply sample_store_ok.
  - reflexivity.
  - by eexists.
  - reflexivity.
  - intros z. rewrite !elem_of_cons, elem_of_nil.
    intros [->|[->|[->|[]]]]; by eexists.
  - exact Hps.
Defined.

(** The sample database satisfies its constraints, and still does after Ada
    is deleted. *)
Lemma handlers_keep_constraints_witness :
  store_ok (delete_user 1 sample_store).1.
Proof.
  destruct (handlers_keep_constraints (lib := sample_lib) sample_store)
    as (_ & _ & Hdel & _).
  - apply sample_store_ok.
  - apply Hdel.
Defined.

(** * Further properties of the handlers *)

(** ** What a loaded payload holds *)

Section Loaded.
Context `{lib : FieldLib}.

Lemma nonempty_field_inr v x :
  nonempty_field v = inr x → v = JStr x ∧ (1 ≤ String.length x)%nat.
Proof.
  unfold nonempty_field, string_field. destruct v as [| | | |s| |]; try done.
  destruct (1 <=? String.length s)%nat eqn:E; [|done].
  intros [= <-]. split; [done|]. by apply Nat.leb_le.
Qed.

Lemma email_field_inr v x :
  email_field v = inr x → v = JStr x ∧ valid_email x = true.
Proof.
  unfold email_field, string_field. destruct v as [| | | |s| |]; try done.
  destruct (valid_email s) eqn:E; [|done]. by intros [= <-].
Qed.

Lemma address_field_inr v a x :
  address_field v = inr a → a = Some x → v = JStr x ∧ address_fits x = true.
Proof.
  unfold address_field, string_field. destruct v as [| | | |s| |]; try done.
  - by intros [= <-] [=].
  - destruct (address_fits s) eqn:E; [|done]. by intros [= <-] [= <-].
Qed.

Lemma price_field_inr v q :
  price_field v = inr q → deser_float v = Some q ∧ (0 <= q)%Q.
Proof.
  unfold price_field. intros Hp.
  assert (match deser_float v with
          | Some q => if Qle_bool 0 q then inr q else inl "Price must be non-negative."
          | None => inl "Not a valid number."
          end = inr q) as Hq by (by destruct v).
  destruct (deser_float v) as [q'|]; [|done].
  destruct (Qle_bool 0 q') eqn:E; [|done].
  injection Hq as <-. split; [done|]. by apply Qle_bool_iff.
Qed.

Lemma ProductSchema_load_inr partial kvs d :
  ProductSchema_load partial (JObj kvs) = inr d →
  d = mkProductData (load_field "id" false integer_field partial kvs).2
                    (load_field "product_name" true nonempty_field partial kvs).2
                    (load_field "price" true price_field partial kvs).2
  ∧ (load_field "product_name" true nonempty_field partial kvs).1 = []
  ∧ (load_field "price" true price_field partial kvs).1 = []
  ∧ unknown_fields ["id"; "product_name"; "price"] kvs = [].
Proof.
  simpl.
  destruct (load_field "id" _ _ _ _) as [e1 i].
  destruct (load_field "product_name" _ _ _ _) as [e2 n].
  destruct (load_field "price" _ _ _ _) as [e3 q].
  intros [Hnil ->]%load_result_inr. simpl.
  apply app_eq_nil in Hnil as [_ Hnil]. apply app_eq_nil in Hnil as [-> Hnil].
  apply app_eq_nil in Hnil as [-> ->]. done.
Qed.

Lemma OrderSchema_load_inr partial kvs d :
  OrderSchema_load partial (JObj kvs) = inr d →
  d = mkOrderData (load_field "id" false integer_field partial kvs).2
                  (load_field "order_date" true datetime_field partial kvs).2
                  (load_field "user_id" true integer_field partial kvs).2
  ∧ (load_field "order_date" true datetime_field partial kvs).1 = []
  ∧ (load_field "user_id" true integer_field partial kvs).1 = []
  ∧ unknown_fields ["id"; "order_date"; "user_id"] kvs = [].
Proof.
  simpl.
  destruct (load_field "id" _ _ _ _) as [e1 i].
  destruct (load_field "order_date" _ _ _ _) as [e2 n].
  destruct (load_field "user_id" _ _ _ _) as [e3 q].
  intros [Hnil ->]%load_result_inr. simpl.
  apply app_eq_nil in Hnil as [_ Hnil]. apply app_eq_nil in Hnil as [-> Hnil].
  apply app_eq_nil in Hnil as [-> ->]. done.
Qed.

(** A load only succeeds on an object. *)
Lemma UserSchema_load_obj partial payload d :
  UserSchema_load partial payload = inr d → ∃ kvs, payload = JObj kvs.
Proof. destruct payload; try done. eauto. Qed.

Lemma ProductSchema_load_obj partial payload d :
  ProductSchema_load partial payload = inr d → ∃ kvs, payload = JObj kvs.
Proof. destruct payload; try done. eauto. Qed.

Lemma OrderSchema_load_obj partial payload d :
  OrderSchema_load partial payload = inr d → ∃ kvs, payload = JObj kvs.
Proof. destruct payload; try done. eauto. Qed.

(** The loaded fields of a user payload satisfy the field rules. *)
Lemma UserSchema_load_valid partial payload d :
  UserSchema_load partial payload = inr d →
  (∀ n, ud_name d = Some n → (1 ≤ String.length n)%nat)
  ∧ (∀ e, ud_email d = Some e → valid_email e = true)
  ∧ (∀ a, ud_address d = Some (Some a) → address_fits a = true).
Proof.
  intros Hl. destruct (UserSchema_load_obj _ _ _ Hl) as [kvs ->].
  apply UserSchema_load_inr in Hl as (-> & _ & _). simpl.
  split_and!.
  - intros n (v & _ & Hv)%load_field_value. by apply nonempty_field_inr in Hv as [_ ?].
  - intros e (v & _ & Hv)%load_field_value. by apply email_field_inr in Hv as [_ ?].
  - intros a (v & _ & Hv)%load_field_value.
    by destruct (address_field_inr v (Some a) a Hv eq_refl).
Qed.

Lemma ProductSchema_load_valid partial payload d :
  ProductSchema_load partial payload = inr d →
  (∀ n, pd_product_name d = Some n → (1 ≤ String.length n)%nat)
  ∧ (∀ q, pd_price d = Some q → (0 <= q)%Q).
Proof.
  intros Hl. destruct (ProductSchema_load_obj _ _ _ Hl) as [kvs ->].
  apply ProductSchema_load_inr in Hl as (-> & _ & _ & _). simpl.
  split.
  - intros n (v & _ & Hv)%load_field_value. by apply nonempty_field_inr in Hv as [_ ?].
  - intros q (v & _ & Hv)%load_field_value. by apply price_field_inr in Hv as [_ ?].
Qed.

End Loaded.

(** ** What every handler keeps and what a failure never does *)

Section Safety.
Context `{lib : FieldLib}.
Implicit Types (s : Store) (uid pid oid : Z).

Lemma rows_valid_intro s s' :
  rows_valid s →
  (∀ i u, users s' !! i = Some u →
     users s !! i = Some u
     ∨ ((1 ≤ String.length (name u))%nat ∧ valid_email (email u) = true
        ∧ ∀ a, address u = Some a → address_fits a = true)) →
  (∀ i p, products s' !! i = Some p →
     products s !! i = Some p
     ∨ ((1 ≤ String.length (product_name p))%nat ∧ (0 <= price p)%Q)) →
  rows_valid s'.
Proof.
  intros [Hu Hp] Hu' Hp'. split.
  - intros i u Hi. destruct (Hu' i u Hi) as [?|?]; eauto.
  - intros i p Hi. destruct (Hp' i p Hi) as [?|?]; eauto.
Qed.

Lemma rows_valid_same s s' :
  rows_valid s → users s' = users s → products s' = products s → rows_valid s'.
Proof.
  intros Hv Hu Hp. apply (rows_valid_intro s); [done|..].
  - intros i u. rewrite Hu. auto.
  - intros i p. rewrite Hp. auto.
Qed.

Lemma create_user_valid request_json s :
  rows_valid s → rows_valid (create_user request_json s).1.
Proof.
  intros Hv. unfold create_user.
  destruct (UserSchema_load false _) as [e|d] eqn:El; [done|].
  destruct (UserSchema_load_valid _ _ _ El) as (Hn & He & Ha).
  destruct (ud_email d) as [em|]; [|done].
  destruct (scalar_one_or_none _) as [[?|]|]; [done| |done].
  destruct (ud_name d) as [nm|]; [|done]. cbn [fst].
  apply (rows_valid_intro s); [done|..]; unfold insert_user; simpl; [|auto].
  intros i u [[_ <-]|[_ ?]]%lookup_insert_Some; [|auto]. right. simpl.
  split_and!; [auto..|]. intros a Hda. apply Ha.
  by destruct (ud_address d) as [[?|]|]; simplify_eq/=.
Qed.

Lemma update_user_valid uid request_json s :
  rows_valid s → rows_valid (update_user uid request_json s).1.
Proof.
  intros Hv. unfold update_user.
  destruct (users s !! uid) as [u|] eqn:Hu; [|done].
  destruct (UserSchema_load true _) as [e|d] eqn:El; [done|].
  destruct (UserSchema_load_valid _ _ _ El) as (Hn & He & Ha).
  destruct Hv as [Hvu Hvp]. destruct (Hvu uid u Hu) as (Hun & Hue & Hua).
  match goal with |- rows_valid (match ?c with _ => _ end).1 =>
    destruct c as [[?|]|] end; [done| |done].
  cbn [fst]. apply (rows_valid_intro s); [by split|..]; unfold set_users; simpl; [|auto].
  intros i u' [[_ <-]|[_ ?]]%lookup_insert_Some; [|auto]. right. simpl.
  split_and!.
  - destruct (ud_name d); simpl; auto.
  - destruct (ud_email d); simpl; auto.
  - intros a. destruct (ud_address d) as [[?|]|]; simpl; [|done|auto].
    intros [= <-]. auto.
Qed.

Lemma delete_user_valid uid s : rows_valid s → rows_valid (delete_user uid s).1.
Proof.
  intros Hv. unfold delete_user.
  destruct (users s !! uid); [|done]. cbn [fst].
  apply (rows_valid_intro s); [done|..]; unfold delete_user_cascade; simpl; [|auto].
  intros i v [_ ?]%lookup_delete_Some. auto.
Qed.

Lemma create_product_valid request_json s :
  rows_valid s → rows_valid (create_product request_json s).1.
Proof.
  intros Hv. unfold create_product.
  destruct (ProductSchema_load false _) as [e|d] eqn:El; [done|].
  destruct (ProductSchema_load_valid _ _ _ El) as (Hn & Hq).
  destruct (pd_product_name d) as [nm|]; [|done].
  destruct (pd_price d) as [pr|]; [|done]. cbn [fst].
  apply (rows_valid_intro s); [done|..]; unfold insert_product; simpl; [auto|].
  intros i p [[_ <-]|[_ ?]]%lookup_insert_Some; [|auto]. right. simpl. auto.
Qed.

Lemma update_product_valid pid request_json s :
  rows_valid s → rows_valid (update_product pid request_json s).1.
Proof.
  intros Hv. unfold update_product.
  destruct (products s !! pid) as [p|] eqn:Hp; [|done].
  destruct (ProductSchema_load true _) as [e|d] eqn:El; [done|].
  destruct (ProductSchema_load_valid _ _ _ El) as (Hn & Hq).
  destruct Hv as [Hvu Hvp]. destruct (Hvp pid p Hp) as (Hpn & Hpq).
  cbn [fst]. apply (rows_valid_intro s); [by split|..]; unfold set_products; simpl; [auto|].
  intros i p' [[_ <-]|[_ ?]]%lookup_insert_Some; [|auto]. right. simpl. split.
  - destruct (pd_product_name d); simpl; auto.
  - destruct (pd_price d); simpl; auto.
Qed.

Lemma delete_product_valid pid s : rows_valid s → rows_valid (delete_product pid s).1.
Proof.
  intros Hv. unfold delete_product.
  destruct (products s !! pid); [|done]. cbn [fst].
  apply (rows_valid_intro s); [done|..]; unfold delete_product_rows; simpl; [auto|].
  intros i q [_ ?]%lookup_delete_Some. auto.
Qed.

Lemma create_order_rows utcnow request_json s :
  users (create_order utcnow request_json s).1 = users s
  ∧ products (create_order utcnow request_json s).1 = products s.
Proof.
  unfold create_order, create_order_loaded, commit_order.
  repeat case_match; simplify_eq/=; done.
Qed.

Lemma add_product_to_order_rows oid pid s :
  users (add_product_to_order oid pid s).1 = users s
  ∧ products (add_product_to_order oid pid s).1 = products s
  ∧ orders (add_product_to_order oid pid s).1 = orders s.
Proof.
  unfold add_product_to_order, insert_link.
  repeat case_match; simplify_eq/=; done.
Qed.

Lemma remove_product_from_order_rows oid pid s :
  users (remove_product_from_order oid pid s).1 = users s
  ∧ products (remove_product_from_order oid pid s).1 = products s
  ∧ orders (remove_product_from_order oid pid s).1 = orders s.
Proof.
  unfold remove_product_from_order. repeat case_match; done.
Qed.

(** X6: the field rules of the schemas hold of every stored row for good.
    If every user has a non-empty name, a valid email and an address that
    fits, and every product a non-empty name and a price that is not
    negative, then so it is after any request to any writing handler. *)
Theorem handlers_keep_rows_valid s :
  rows_valid s →
  (∀ request_json, rows_valid (create_user request_json s).1)
  ∧ (∀ uid request_json, rows_valid (update_user uid request_json s).1)
  ∧ (∀ uid, rows_valid (delete_user uid s).1)
  ∧ (∀ request_json, rows_valid (create_product request_json s).1)
  ∧ (∀ pid request_json, rows_valid (update_product pid request_json s).1)
  ∧ (∀ pid, rows_valid (delete_product pid s).1)
  ∧ (∀ utcnow request_json, rows_valid (create_order utcnow request_json s).1)
  ∧ (∀ oid pid, rows_valid (add_product_to_order oid pid s).1)
  ∧ (∀ oid pid, rows_valid (remove_product_from_order oid pid s).1).
Proof.
  intros Hv. split_and!; intros.
  - by apply create_user_valid.
  - by apply update_user_valid.
  - by apply delete_user_valid.
  - by apply create_product_valid.
  - by apply update_product_valid.
  - by apply delete_product_valid.
  - destruct (create_order_rows utcnow request_json s). by apply (rows_valid_same s).
  - destruct (add_product_to_order_rows oid pid s) as (? & ? & ?).
    by apply (rows_valid_same s).
  - destruct (remove_product_from_order_rows oid pid s) as (? & ? & ?).
    by apply (rows_valid_same s).
Qed.

(** Closes [status is neither 200 nor 201 → store unchanged] for a handler
    once it is unfolded: in every branch either the store is returned as it
    was or the status is 200 or 201. *)
Ltac failure_writes_nothing :=
  repeat case_match; simpl; intros; simplify_eq/=; try done.

(** X7: a request that fails writes nothing. Whenever a writing handler
    answers with a status other than 200 and 201 (a validation error, an
    unknown id, a conflict, a missing link, an uncaught exception), the
    database it leaves is the database it found. *)
Theorem failure_leaves_store s :
  (∀ request_json, let r := create_user request_json s in
     r.2.2 ≠ 201 → r.1 = s)
  ∧ (∀ uid request_json, let r := update_user uid request_json s in
     r.2.2 ≠ 200 → r.1 = s)
  ∧ (∀ uid, let r := delete_user uid s in r.2.2 ≠ 200 → r.1 = s)
  ∧ (∀ request_json, let r := create_product request_json s in
     r.2.2 ≠ 201 → r.1 = s)
  ∧ (∀ pid request_json, let r := update_product pid request_json s in
     r.2.2 ≠ 200 → r.1 = s)
  ∧ (∀ pid, let r := delete_product pid s in r.2.2 ≠ 200 → r.1 = s)
  ∧ (∀ utcnow request_json, let r := create_order utcnow request_json s in
     r.2.2 ≠ 201 → r.1 = s)
  ∧ (∀ oid pid, let r := add_product_to_order oid pid s in
     r.2.2 ≠ 200 → r.1 = s)
  ∧ (∀ oid pid, let r := remove_product_from_order oid pid s in
     r.2.2 ≠ 200 → r.1 = s).
Proof.
  split_and!; intros; subst r.
  - revert H. unfold create_user. failure_writes_nothing.
  - revert H. unfold update_user. failure_writes_nothing.
  - revert H. unfold delete_user. failure_writes_nothing.
  - revert H. unfold create_product. failure_writes_nothing.
  - revert H. unfold update_product. failure_writes_nothing.
  - revert H. unfold delete_product. failure_writes_nothing.
  - revert H. unfold create_order, create_order_loaded. failure_writes_nothing.
  - revert H. unfold add_product_to_order. failure_writes_nothing.
  - revert H. unfold remove_product_from_order. failure_writes_nothing.
Qed.

End Safety.

(** ** Users: creation, lookup and update *)

Section UserRecords.
Context `{lib : FieldLib}.
Implicit Types (s : Store) (uid : Z) (kvs : list (string * json)).

(** A field that loaded without error from a key that is present holds the
    deserialised value of the key. *)
Lemma load_field_present {A : Type} key required (deser : json → string + A)
    partial kvs v :
  dict_get key kvs = Some v →
  (load_field key required deser partial kvs).1 = [] →
  ∃ x, deser v = inr x ∧ (load_field key required deser partial kvs).2 = Some x.
Proof.
  unfold load_field. intros ->. destruct (deser v); simpl; [done|eauto].
Qed.

(** A field that fails makes the load fail with its message. *)
Lemma UserSchema_load_error partial kvs key msg :
  (key, msg) ∈ (load_field "name" true nonempty_field partial kvs).1
               ++ (load_field "email" true email_field partial kvs).1
               ++ unknown_fields ["id"; "name"; "address"; "email"] kvs →
  ∃ e, UserSchema_load partial (JObj kvs) = inl e ∧ (key, msg) ∈ e.
Proof.
  intros Hin. simpl.
  destruct (load_field "id" _ _ _ _) as [e1 i].
  destruct (load_field "name" _ _ _ _) as [e2 n].
  destruct (load_field "address" _ _ _ _) as [e3 a].
  destruct (load_field "email" _ _ _ _) as [e4 m].
  simpl in Hin.
  assert ((key, msg) ∈ e1 ++ e2 ++ e3 ++ e4
            ++ unknown_fields ["id"; "name"; "address"; "email"] kvs) as Hin'.
  { rewrite !elem_of_app in Hin. rewrite !elem_of_app. tauto. }
  eexists. split; [|exact Hin'].
  apply load_result_inl. intros Hnil. rewrite Hnil in Hin'.
  by apply elem_of_nil in Hin'.
Qed.

Lemma load_field_error_missing {A : Type} key (deser : json → string + A) kvs :
  dict_get key kvs = None →
  (key, "Missing data for required field.")
    ∈ (load_field key true deser false kvs).1.
Proof. intros E. rewrite (load_field_missing _ _ _ E). left. Qed.

Lemma load_field_error_invalid {A : Type} key required (deser : json → string + A)
    partial kvs v msg :
  dict_get key kvs = Some v → deser v = inl msg →
  (key, msg) ∈ (load_field key required deser partial kvs).1.
Proof. unfold load_field. intros -> ->. left. Qed.

(** X8: CreateUser validates before it looks at the table. A request
    without a name, with an empty name, without an email or with an email
    the Email field refuses is answered 400 with the message of that field,
    and nothing is written, whatever the table holds. *)
Theorem create_user_validation kvs s :
  (dict_get "name" kvs = None →
     ∃ e, create_user (JObj kvs) s = (s, (Errors e, 400))
          ∧ ("name", "Missing data for required field.") ∈ e)
  ∧ (dict_get "name" kvs = Some (JStr "") →
     ∃ e, create_user (JObj kvs) s = (s, (Errors e, 400))
          ∧ ("name", "Shorter than minimum length 1.") ∈ e)
  ∧ (dict_get "email" kvs = None →
     ∃ e, create_user (JObj kvs) s = (s, (Errors e, 400))
          ∧ ("email", "Missing data for required field.") ∈ e)
  ∧ (∀ em, dict_get "email" kvs = Some (JStr em) → valid_email em = false →
     ∃ e, create_user (JObj kvs) s = (s, (Errors e, 400))
          ∧ ("email", "Not a valid email address.") ∈ e).
Proof.
  assert (∀ key msg,
            (key, msg) ∈ (load_field "name" true nonempty_field false kvs).1
                         ++ (load_field "email" true email_field false kvs).1
                         ++ unknown_fields ["id"; "name"; "address"; "email"] kvs →
            ∃ e, create_user (JObj kvs) s = (s, (Errors e, 400)) ∧ (key, msg) ∈ e)
    as Hfail.
  { intros key msg Hin. unfold create_user. rewrite py_or_obj.
    destruct (UserSchema_load_error false kvs key msg Hin) as (e & -> & He). eauto. }
  split_and!.
  - intros E. apply Hfail, elem_of_app. left. by apply load_field_error_missing.
  - intros E. apply Hfail, elem_of_app. left.
    by apply (load_field_error_invalid _ _ _ _ _ (JStr "")).
  - intros E. apply Hfail, elem_of_app. right. apply elem_of_app. left.
    by apply load_field_error_missing.
  - intros em E Hv. apply Hfail, elem_of_app. right. apply elem_of_app. left.
    apply (load_field_error_invalid _ _ _ _ _ (JStr em)); [done|].
    unfold email_field. simpl. by rewrite Hv.
Qed.

(** X9: every user handler refuses a key the schema does not declare.
    A CreateUser request, or an UpdateUser request for an existing user,
    that holds any key other than id, name, address and email is answered
    400 with "Unknown field." for that key, and nothing is written. *)
Theorem user_unknown_key_refused key kvs s :
  is_Some (dict_get key kvs) → key ∉ ["id"; "name"; "address"; "email"] →
  (∃ e, create_user (JObj kvs) s = (s, (Errors e, 400))
        ∧ (key, "Unknown field.") ∈ e)
  ∧ (∀ uid, is_Some (users s !! uid) →
     ∃ e, update_user uid (JObj kvs) s = (s, (Errors e, 400))
          ∧ (key, "Unknown field.") ∈ e).
Proof.
  intros Hk Hd.
  assert (∀ partial, ∃ e, UserSchema_load partial (JObj kvs) = inl e
                          ∧ (key, "Unknown field.") ∈ e) as Hl.
  { intros partial. apply UserSchema_load_error. rewrite !elem_of_app.
    right. right. by apply unknown_fields_elem. }
  split.
  - unfold create_user. rewrite py_or_obj.
    destruct (Hl false) as (e & -> & He). eauto.
  - intros uid [u Hu]. unfold update_user. rewrite Hu, py_or_obj.
    destruct (Hl true) as (e & -> & He). eauto.
Qed.

(** The loaded fields, in terms of the keys of the payload. *)
Lemma UserSchema_load_fields partial kvs d :
  UserSchema_load partial (JObj kvs) = inr d →
  (∀ nm, dict_get "name" kvs = Some (JStr nm) → ud_name d = Some nm)
  ∧ (∀ em, dict_get "email" kvs = Some (JStr em) → ud_email d = Some em)
  ∧ (∀ a, dict_get "address" kvs = Some (JStr a) → ud_address d = Some (Some a))
  ∧ (dict_get "address" kvs = Some JNull → ud_address d = Some None)
  ∧ (dict_get "address" kvs = None → ud_address d = None).
Proof.
  intros Hl. pose proof Hl as Hl'. simpl in Hl'.
  destruct (load_field "id" _ _ _ _) as [e1 i].
  destruct (load_field "name" _ _ _ _) as [e2 n] eqn:En.
  destruct (load_field "address" _ _ _ _) as [e3 a] eqn:Ea.
  destruct (load_field "email" _ _ _ _) as [e4 m] eqn:Em.
  apply load_result_inr in Hl' as [Hnil ->]. simpl.
  apply app_eq_nil in Hnil as [_ Hnil]. apply app_eq_nil in Hnil as [-> Hnil].
  apply app_eq_nil in Hnil as [-> Hnil]. apply app_eq_nil in Hnil as [-> _].
  unfold load_field in En, Ea, Em. split_and!.
  - intros nm E. rewrite E in En. unfold nonempty_field in En. simpl in En.
    destruct (String.length nm); by simplify_eq/=.
  - intros em E. rewrite E in Em. unfold email_field in Em. simpl in Em.
    destruct (valid_email em); by simplify_eq/=.
  - intros x E. rewrite E in Ea. unfold address_field in Ea. simpl in Ea.
    destruct (address_fits x); by simplify_eq/=.
  - intros E. rewrite E in Ea. by simplify_eq/=.
  - intros E. rewrite E in Ea. by destruct (false && negb partial); simplify_eq/=.
Qed.

(** X10: CreateUser followed by GetUser is a round trip. On a database
    that satisfies its constraints, a request that passes the schema and
    carries an email no user has yet is answered 201 with a user that has
    exactly the name, email and address of the request (no address when the
    key is absent or null) under an id that was not in use; GetUser on that
    id returns the same user, every other id answers as before, and
    ListUsers returns the new user and exactly the users it held. *)
Theorem create_user_round_trip kvs d nm em s :
  store_ok s →
  UserSchema_load false (JObj kvs) = inr d →
  dict_get "name" kvs = Some (JStr nm) → dict_get "email" kvs = Some (JStr em) →
  (∀ i u, users s !! i = Some u → email u ≠ em) →
  let r := create_user (JObj kvs) s in
  let id := next_user_id s in
  ∃ u, name u = nm ∧ email u = em
    ∧ (∀ a, dict_get "address" kvs = Some (JStr a) → address u = Some a)
    ∧ (dict_get "address" kvs = None ∨ dict_get "address" kvs = Some JNull →
       address u = None)
    ∧ users s !! id = None
    ∧ r.2 = (UserJson id u, 201)
    ∧ get_user id r.1 = (UserJson id u, 200)
    ∧ (∀ j, j ≠ id → get_user j r.1 = get_user j s)
    ∧ ∃ l, get_users r.1 = (UsersJson l, 200)
           ∧ ∀ j v, (j, v) ∈ l ↔ (j = id ∧ v = u) ∨ users s !! j = Some v.
Proof.
  intros Hok Hl Hn He Hno. cbv zeta.
  destruct (UserSchema_load_fields _ _ _ Hl) as (Fn & Fe & Fa & Fnull & Fnone).
  assert (users s !! next_user_id s = None) as Hfresh.
  { destruct (users s !! next_user_id s) eqn:E; [|done].
    pose proof (ok_next_user s Hok (next_user_id s) ltac:(eauto)). lia. }
  unfold create_user. rewrite py_or_obj, Hl, (Fe em He).
  rewrite (users_with_email_none em s Hno). cbn [scalar_one_or_none].
  rewrite (Fn nm Hn). cbn [fst snd].
  exists (mkUser nm (default None (ud_address d)) em).
  split; [reflexivity|]. split; [reflexivity|]. cbn [address].
  split. { intros a Ha. by rewrite (Fa a Ha). }
  split. { intros [Ha|Ha]; [by rewrite (Fnone Ha)|by rewrite (Fnull Ha)]. }
  split; [done|]. split; [done|].
  split. { unfold get_user, insert_user. simpl. by rewrite lookup_insert_eq. }
  split. { intros j Hj. unfold get_user, insert_user. simpl.
           by rewrite lookup_insert_ne. }
  eexists. split; [reflexivity|]. intros j v.
  unfold insert_user. simpl. rewrite elem_of_map_to_list, lookup_insert_Some.
  split.
  - intros [[<- <-]|[? ?]]; auto.
  - intros [[-> ->]|Hv]; [by left|]. right. split; [|done].
    intros <-. congruence.
Qed.

(** X11: UpdateUser writes what the request supplies. For an existing user
    and a request that passes the partial schema, whose email (if any) is
    the user's own or one that no user has, the answer is 200 with the
    updated user, GetUser returns that user, and each of name, email and
    address that the request holds has the value of the request (a null
    address clears the address). *)
Theorem update_user_sets_supplied uid u kvs d s :
  users s !! uid = Some u →
  UserSchema_load true (JObj kvs) = inr d →
  (∀ em, dict_get "email" kvs = Some (JStr em) →
     em = email u ∨ ∀ i v, users s !! i = Some v → email v ≠ em) →
  let r := update_user uid (JObj kvs) s in
  ∃ u', r.2 = (UserJson uid u', 200)
    ∧ get_user uid r.1 = (UserJson uid u', 200)
    ∧ (∀ nm, dict_get "name" kvs = Some (JStr nm) → name u' = nm)
    ∧ (∀ em, dict_get "email" kvs = Some (JStr em) → email u' = em)
    ∧ (∀ a, dict_get "address" kvs = Some (JStr a) → address u' = Some a)
    ∧ (dict_get "address" kvs = Some JNull → address u' = None).
Proof.
  intros Hu Hl Hfree. cbv zeta.
  destruct (UserSchema_load_fields _ _ _ Hl) as (Fn & Fe & Fa & Fnull & _).
  unfold update_user. rewrite Hu, py_or_obj, Hl.
  assert (match ud_email d with
          | Some em =>
              if bool_decide (em ≠ email u)
              then scalar_one_or_none (users_with_email em s)
              else Some None
          | None => Some None
          end = Some None) as ->.
  { destruct (ud_email d) as [em|] eqn:Em; [|done].
    case_bool_decide as Hne; [|done].
    assert (dict_get "email" kvs = Some (JStr em)) as Hk.
    { apply UserSchema_load_inr in Hl as (-> & _ & _). simpl in Em.
      apply load_field_value in Em as (v & Hv & Hd).
      by apply email_field_inr in Hd as [-> _]. }
    destruct (Hfree em Hk) as [?|Hno]; [done|].
    by rewrite (users_with_email_none em s Hno). }
  cbn [fst snd].
  exists (mkUser (default (name u) (ud_name d)) (default (address u) (ud_address d))
                 (default (email u) (ud_email d))).
  split; [reflexivity|].
  split. { unfold get_user, set_users. simpl. by rewrite lookup_insert_eq. }
  cbn [name email address]. split_and!.
  - intros nm Hk. by rewrite (Fn nm Hk).
  - intros em Hk. by rewrite (Fe em Hk).
  - intros a Hk. by rewrite (Fa a Hk).
  - intros Hk. by rewrite (Fnull Hk).
Qed.

(** X12: UpdateUser refuses an email that another user has. With unique
    emails in the table, a valid request that sets the email of one user to
    the email of a different user is answered 400 "Email already exists"
    and nothing is written. *)
Theorem update_user_email_taken uid j u v kvs d s :
  emails_unique s →
  users s !! uid = Some u → users s !! j = Some v → j ≠ uid →
  UserSchema_load true (JObj kvs) = inr d →
  dict_get "email" kvs = Some (JStr (email v)) →
  update_user uid (JObj kvs) s = (s, (Message "Email already exists", 400)).
Proof.
  intros Huniq Hu Hv Hj Hl Hk.
  destruct (UserSchema_load_fields _ _ _ Hl) as (_ & Fe & _).
  unfold update_user. rewrite Hu, py_or_obj, Hl, (Fe _ Hk).
  rewrite bool_decide_eq_true_2.
  - by rewrite (users_with_email_one (email v) s j v).
  - intros Heq. apply Hj. by apply (Huniq j uid v u).
Qed.

Lemma default_default {A : Type} (x : A) (o : option A) :
  default (default x o) o = default x o.
Proof. by destruct o. Qed.

(** X13: a partial update is idempotent. Sending the same UpdateUser (or
    UpdateProduct) request a second time gives the same answer as the first
    time and leaves the database as the first request left it, whether the
    first request succeeded or failed. *)
Theorem update_twice_is_update_once :
  (∀ uid request_json s,
     let r := update_user uid request_json s in
     update_user uid request_json r.1 = r)
  ∧ (∀ pid request_json s,
     let r := update_product pid request_json s in
     update_product pid request_json r.1 = r).
Proof.
  split.
  - intros uid request_json s. cbv zeta. unfold update_user at 2 3.
    destruct (users s !! uid) as [u|] eqn:Hu;
      [|cbn [fst]; unfold update_user; by rewrite Hu].
    destruct (UserSchema_load true _) as [e|d] eqn:El;
      [cbn [fst]; unfold update_user; by rewrite Hu, El|].
    destruct (match ud_email d with
              | Some em =>
                  if bool_decide (em ≠ email u)
                  then scalar_one_or_none (users_with_email em s)
                  else Some None
              | None => Some None
              end) as [[?|]|] eqn:Ec;
      [cbn [fst]; unfold update_user; by rewrite Hu, El, Ec| |
       cbn [fst]; unfold update_user; by rewrite Hu, El, Ec].
    cbn [fst]. unfold update_user, set_users. cbn [users].
    rewrite lookup_insert_eq, El. cbn [email].
    assert (match ud_email d with
            | Some em =>
                if bool_decide (em ≠ default (email u) (ud_email d))
                then scalar_one_or_none
                       (users_with_email em
                          (mkStore (<[uid := mkUser (default (name u) (ud_name d))
                                               (default (address u) (ud_address d))
                                               (default (email u) (ud_email d))]>
                                      (users s))
                                   (products s) (orders s) (order_product s)
                                   (next_user_id s) (next_product_id s)
                                   (next_order_id s)))
                else Some None
            | None => Some None
            end = Some None) as ->.
    { destruct (ud_email d); [|done]. simpl. by rewrite bool_decide_eq_false_2 by auto. }
    cbn [name address email products orders order_product
         next_user_id next_product_id next_order_id].
    by rewrite !default_default, insert_insert_eq.
  - intros pid request_json s. cbv zeta. unfold update_product at 2 3.
    destruct (products s !! pid) as [p|] eqn:Hp;
      [|cbn [fst]; unfold update_product; by rewrite Hp].
    destruct (ProductSchema_load true _) as [e|d] eqn:El;
      [cbn [fst]; unfold update_product; by rewrite Hp, El|].
    cbn [fst]. unfold update_product, set_products. cbn [products].
    rewrite lookup_insert_eq, El.
    cbn [product_name price users orders order_product
         next_user_id next_product_id next_order_id].
    by rewrite !default_default, insert_insert_eq.
Qed.

End UserRecords.

(** ** Products: creation, lookup, update and deletion *)

Section ProductRecords.
Context `{lib : FieldLib}.
Implicit Types (s : Store) (pid oid : Z) (kvs : list (string * json)).

Lemma ProductSchema_load_error partial kvs key msg :
  (key, msg) ∈ (load_field "product_name" true nonempty_field partial kvs).1
               ++ (load_field "price" true price_field partial kvs).1
               ++ unknown_fields ["id"; "product_name"; "price"] kvs →
  ∃ e, ProductSchema_load partial (JObj kvs) = inl e ∧ (key, msg) ∈ e.
Proof.
  intros Hin. simpl.
  destruct (load_field "id" _ _ _ _) as [e1 i].
  destruct (load_field "product_name" _ _ _ _) as [e2 n].
  destruct (load_field "price" _ _ _ _) as [e3 q].
  simpl in Hin.
  assert ((key, msg) ∈ e1 ++ e2 ++ e3
            ++ unknown_fields ["id"; "product_name"; "price"] kvs) as Hin'.
  { rewrite !elem_of_app in Hin. rewrite !elem_of_app. tauto. }
  eexists. split; [|exact Hin'].
  apply load_result_inl. intros Hnil. rewrite Hnil in Hin'.
  by apply elem_of_nil in Hin'.
Qed.

Lemma price_field_negative v q :
  v ≠ JNull → deser_float v = Some q → (q < 0)%Q →
  price_field v = inl "Price must be non-negative.".
Proof.
  intros Hv Hd Hq. unfold price_field. rewrite Hd.
  assert (Qle_bool 0 q = false) as ->.
  { destruct (Qle_bool 0 q) eqn:E; [|done].
    apply Qle_bool_iff in E. by apply Qlt_not_le in Hq. }
  by destruct v.
Qed.

(** X14: the price is checked on every write. A CreateProduct request, or an
    UpdateProduct request for an existing product, whose price parses to a
    negative number is answered 400 with "Price must be non-negative." and
    nothing is written. *)
Theorem product_price_checked kvs v q s :
  dict_get "price" kvs = Some v → v ≠ JNull →
  deser_float v = Some q → (q < 0)%Q →
  (∃ e, create_product (JObj kvs) s = (s, (Errors e, 400))
        ∧ ("price", "Price must be non-negative.") ∈ e)
  ∧ (∀ pid, is_Some (products s !! pid) →
     ∃ e, update_product pid (JObj kvs) s = (s, (Errors e, 400))
          ∧ ("price", "Price must be non-negative.") ∈ e).
Proof.
  intros Hk Hv Hd Hq.
  assert (∀ partial, ∃ e, ProductSchema_load partial (JObj kvs) = inl e
                          ∧ ("price", "Price must be non-negative.") ∈ e) as Hl.
  { intros partial. apply ProductSchema_load_error. rewrite !elem_of_app.
    right. left. apply (load_field_error_invalid _ _ _ _ _ v); [done|].
    by apply (price_field_negative v q). }
  split.
  - unfold create_product. rewrite py_or_obj.
    destruct (Hl false) as (e & -> & He). eauto.
  - intros pid [p Hp]. unfold update_product. rewrite Hp, py_or_obj.
    destruct (Hl true) as (e & -> & He). eauto.
Qed.

(** The loaded fields of a product payload, in terms of its keys. *)
Lemma ProductSchema_load_fields partial kvs d :
  ProductSchema_load partial (JObj kvs) = inr d →
  (∀ nm, dict_get "product_name" kvs = Some (JStr nm) → pd_product_name d = Some nm)
  ∧ (∀ v, dict_get "price" kvs = Some v →
       ∃ q, pd_price d = Some q ∧ deser_float v = Some q ∧ (0 <= q)%Q)
  ∧ (dict_get "product_name" kvs = None → pd_product_name d = None)
  ∧ (dict_get "price" kvs = None → pd_price d = None).
Proof.
  intros (-> & Hn & Hp & _)%ProductSchema_load_inr. simpl. split_and!.
  - intros nm E.
    destruct (load_field_present _ _ _ _ _ _ E Hn) as (x & Hx & ->).
    by apply nonempty_field_inr in Hx as [[= ->] _].
  - intros v E.
    destruct (load_field_present _ _ _ _ _ _ E Hp) as (x & Hx & ->).
    apply price_field_inr in Hx as [? ?]. eauto.
  - intros E. by eapply load_field_absent, surjective_pairing.
  - intros E. by eapply load_field_absent, surjective_pairing.
Qed.

(** X15: CreateProduct followed by GetProduct is a round trip. On a database
    that satisfies its constraints, a request that passes the schema is
    answered 201 with a product that has the name of the request and the
    parsed price, which is not negative, under an id that was not in use;
    GetProduct on that id returns the same product, every other id answers
    as before, ListProducts returns the new product and exactly the products
    it held, and no order lists the new product. *)
Theorem create_product_round_trip kvs d nm v s :
  store_ok s →
  ProductSchema_load false (JObj kvs) = inr d →
  dict_get "product_name" kvs = Some (JStr nm) → dict_get "price" kvs = Some v →
  let r := create_product (JObj kvs) s in
  let id := next_product_id s in
  ∃ p, product_name p = nm ∧ deser_float v = Some (price p) ∧ (0 <= price p)%Q
    ∧ products s !! id = None
    ∧ r.2 = (ProductJson id p, 201)
    ∧ get_product id r.1 = (ProductJson id p, 200)
    ∧ (∀ j, j ≠ id → get_product j r.1 = get_product j s)
    ∧ (∃ l, get_products r.1 = (ProductsJson l, 200)
            ∧ ∀ j q, (j, q) ∈ l ↔ (j = id ∧ q = p) ∨ products s !! j = Some q)
    ∧ ∀ oid, (oid, id) ∉ order_product r.1.
Proof.
  intros Hok Hl Hn Hp. cbv zeta.
  destruct (ProductSchema_load_fields _ _ _ Hl) as (Fn & Fp & _ & _).
  destruct (Fp v Hp) as (q & Hq & Hdq & Hq0).
  assert (products s !! next_product_id s = None) as Hfresh.
  { destruct (products s !! next_product_id s) eqn:E; [|done].
    pose proof (ok_next_product s Hok (next_product_id s) ltac:(eauto)). lia. }
  unfold create_product. rewrite py_or_obj, Hl, (Fn nm Hn), Hq. cbn [fst snd].
  exists (mkProduct nm q). split_and!; try done.
  - unfold get_product, insert_product. simpl. by rewrite lookup_insert_eq.
  - intros j Hj. unfold get_product, insert_product. simpl.
    by rewrite lookup_insert_ne.
  - eexists. split; [reflexivity|]. intros j p.
    unfold insert_product. simpl. rewrite elem_of_map_to_list, lookup_insert_Some.
    split.
    + intros [[<- <-]|[? ?]]; auto.
    + intros [[-> ->]|Hv]; [by left|]. right. split; [|done].
      intros <-. congruence.
  - intros oid Hin. unfold insert_product in Hin. simpl in Hin.
    destruct (ok_link_product s Hok _ _ Hin) as [? ?]. congruence.
Qed.

(** X16: UpdateProduct changes only what the request supplies. For an
    existing product and a request that passes the partial schema, the
    answer is 200 with the updated product, GetProduct returns it, a field
    whose key is absent keeps its value, a field whose key is present takes
    the value of the request, and every other product and every other table
    is untouched. *)
Theorem update_product_partial pid p kvs d s :
  products s !! pid = Some p →
  ProductSchema_load true (JObj kvs) = inr d →
  let r := update_product pid (JObj kvs) s in
  ∃ p', r.2 = (ProductJson pid p', 200)
    ∧ get_product pid r.1 = (ProductJson pid p', 200)
    ∧ (dict_get "product_name" kvs = None → product_name p' = product_name p)
    ∧ (dict_get "price" kvs = None → price p' = price p)
    ∧ (∀ nm, dict_get "product_name" kvs = Some (JStr nm) → product_name p' = nm)
    ∧ (∀ v, dict_get "price" kvs = Some v → deser_float v = Some (price p'))
    ∧ (∀ j, j ≠ pid → products r.1 !! j = products s !! j)
    ∧ users r.1 = users s ∧ orders r.1 = orders s
    ∧ order_product r.1 = order_product s.
Proof.
  intros Hp Hl. cbv zeta.
  destruct (ProductSchema_load_fields _ _ _ Hl) as (Fn & Fp & Fn0 & Fp0).
  unfold update_product. rewrite Hp, py_or_obj, Hl. cbn [fst snd].
  exists (mkProduct (default (product_name p) (pd_product_name d))
                    (default (price p) (pd_price d))).
  unfold set_products, get_product. cbn [products users orders order_product].
  rewrite lookup_insert_eq. cbn [product_name price]. split_and!; try done.
  - intros E. by rewrite (Fn0 E).
  - intros E. by rewrite (Fp0 E).
  - intros nm E. by rewrite (Fn nm E).
  - intros v E. destruct (Fp v E) as (q & -> & ? & _). done.
  - intros j Hj. by rewrite lookup_insert_ne.
Qed.

(** X17: DeleteProduct removes the product from every order. For an
    existing product the answer is 200; afterwards GetProduct on it fails,
    no row of the association table mentions it, the rows of the other
    products are as they were, and ListProductsForOrder on any order lists
    what it listed before except the deleted product. Users, orders and the
    other products are untouched. *)
Theorem delete_product_cascades pid s :
  is_Some (products s !! pid) →
  let r := delete_product pid s in
  r.2.2 = 200
  ∧ get_product pid r.1 = (Message "Invalid product id", 400)
  ∧ (∀ oid, (oid, pid) ∉ order_product r.1)
  ∧ (∀ oid q, q ≠ pid → (oid, q) ∈ order_product r.1 ↔ (oid, q) ∈ order_product s)
  ∧ (∀ j, j ≠ pid → products r.1 !! j = products s !! j)
  ∧ users r.1 = users s ∧ orders r.1 = orders s
  ∧ (∀ oid, is_Some (orders s !! oid) →
     ∃ ps, get_products_for_order oid r.1 = (ProductsJson ps, 200)
           ∧ ∀ j q, (j, q) ∈ ps
                    ↔ j ≠ pid ∧ (j, q) ∈ order_products oid s).
Proof.
  intros [p Hp]. cbv zeta. unfold delete_product. rewrite Hp. cbn [fst snd].
  unfold delete_product_rows, get_product. cbn [products users orders order_product].
  rewrite lookup_delete_eq. split_and!; try done.
  - intros oid [Hne _]%elem_of_filter. done.
  - intros oid q Hq. rewrite elem_of_filter. simpl. tauto.
  - intros j Hj. by rewrite lookup_delete_ne.
  - intros oid [o Ho]. unfold get_products_for_order. cbn [orders]. rewrite Ho.
    eexists. split; [reflexivity|]. intros j q.
    rewrite !order_products_lookup. cbn [products order_product].
    rewrite lookup_delete_Some, elem_of_filter. simpl. intuition congruence.
Qed.

End ProductRecords.

(** ** Orders and their products: effects and compositions *)

Section OrderRecords.
Context `{lib : FieldLib}.
Implicit Types (s : Store) (uid pid oid : Z).

(** The product list of an order depends on the products table and on the
    rows of the association table for that order only. *)
Lemma order_products_ext oid s s' :
  products s' = products s →
  (∀ j, (oid, j) ∈ order_product s' ↔ (oid, j) ∈ order_product s) →
  order_products oid s' = order_products oid s.
Proof.
  intros Hp Hl. unfold order_products. f_equal. rewrite Hp.
  apply map_filter_ext. intros j q _. simpl. apply Hl.
Qed.

Lemma get_products_for_order_ext oid s s' :
  orders s' !! oid = orders s !! oid → products s' = products s →
  (∀ j, (oid, j) ∈ order_product s' ↔ (oid, j) ∈ order_product s) →
  get_products_for_order oid s' = get_products_for_order oid s.
Proof.
  intros Ho Hp Hl. unfold get_products_for_order.
  by rewrite Ho, (order_products_ext oid s s').
Qed.

(** X18: AddProductToOrder adds one link and nothing else. For an existing
    order and an existing product that are not linked, the answer is 200
    with the order; afterwards the association table holds the new link and
    exactly its old rows, ListProductsForOrder on the order lists the
    product and exactly what it listed before, and the product lists of all
    other orders, and the users, products and orders tables, are as they
    were. *)
Theorem add_product_to_order_adds oid pid o s :
  orders s !! oid = Some o → is_Some (products s !! pid) →
  (oid, pid) ∉ order_product s →
  let r := add_product_to_order oid pid s in
  r.2 = (OrderJson oid o, 200)
  ∧ (∀ a b, (a, b) ∈ order_product r.1
            ↔ (a = oid ∧ b = pid) ∨ (a, b) ∈ order_product s)
  ∧ (∃ ps, get_products_for_order oid r.1 = (ProductsJson ps, 200)
           ∧ ∀ j q, (j, q) ∈ ps
                    ↔ (j = pid ∧ products s !! pid = Some q)
                      ∨ (j, q) ∈ order_products oid s)
  ∧ (∀ oid', oid' ≠ oid →
       get_products_for_order oid' r.1 = get_products_for_order oid' s)
  ∧ users r.1 = users s ∧ products r.1 = products s ∧ orders r.1 = orders s.
Proof.
  intros Ho Hp Hl. cbv zeta.
  rewrite (add_product_to_order_fresh oid pid o s Ho Hp Hl). cbn [fst snd].
  unfold set_order_product. cbn [users products orders order_product].
  split_and!; try done.
  - intros a b. rewrite elem_of_union, elem_of_singleton. split.
    + intros [[= -> ->]|?]; auto.
    + intros [[-> ->]|?]; auto.
  - unfold get_products_for_order. cbn [orders]. rewrite Ho.
    eexists. split; [reflexivity|]. intros j q.
    rewrite !order_products_lookup. cbn [products order_product].
    rewrite elem_of_union, elem_of_singleton. split.
    + intros [Hq [[= ->]|?]]; auto.
    + intros [[-> Hq]|[Hq ?]]; auto.
  - intros oid' Hne. apply get_products_for_order_ext; [done..|].
    intros j. cbn [order_product]. rewrite elem_of_union, elem_of_singleton.
    split; [|auto]. intros [[= ? ?]|?]; [done|auto].
Qed.

(** X19: RemoveProductFromOrder removes one link and nothing else. For an
    order and a product that are linked, the answer is 200 with the order;
    afterwards the association table holds its old rows except that link,
    ListProductsForOrder on the order lists what it listed before except
    the product, the product lists of all other orders and the three tables
    are as they were, and removing the product again is answered 404
    "Product not in order". *)
Theorem remove_product_from_order_removes oid pid o s :
  orders s !! oid = Some o → is_Some (products s !! pid) →
  (oid, pid) ∈ order_product s →
  let r := remove_product_from_order oid pid s in
  r.2 = (OrderJson oid o, 200)
  ∧ (∀ a b, (a, b) ∈ order_product r.1
            ↔ (a, b) ≠ (oid, pid) ∧ (a, b) ∈ order_product s)
  ∧ (∃ ps, get_products_for_order oid r.1 = (ProductsJson ps, 200)
           ∧ ∀ j q, (j, q) ∈ ps ↔ j ≠ pid ∧ (j, q) ∈ order_products oid s)
  ∧ (∀ oid', oid' ≠ oid →
       get_products_for_order oid' r.1 = get_products_for_order oid' s)
  ∧ users r.1 = users s ∧ products r.1 = products s ∧ orders r.1 = orders s
  ∧ remove_product_from_order oid pid r.1
    = (r.1, (Message "Product not in order", 404)).
Proof.
  intros Ho [p Hp] Hl. cbv zeta.
  assert (remove_product_from_order oid pid s
          = (set_order_product (order_product s ∖ {[(oid, pid)]}) s,
             (OrderJson oid o, 200))) as ->.
  { unfold remove_product_from_order. rewrite Ho, Hp.
    rewrite product_in_order_spec by eauto. by rewrite bool_decide_eq_true_2. }
  cbn [fst snd]. unfold set_order_product at 1 2 3 4 5 6.
  cbn [users products orders order_product].
  split_and!; try done.
  - intros a b. rewrite elem_of_difference, elem_of_singleton. tauto.
  - unfold get_products_for_order. cbn [orders]. rewrite Ho.
    eexists. split; [reflexivity|]. intros j q.
    rewrite !order_products_lookup. cbn [products order_product].
    rewrite elem_of_difference, elem_of_singleton. split.
    + intros [Hq [? Hne]]. split; [|done]. intros ->. by apply Hne.
    + intros [Hne [Hq ?]]. split; [done|]. split; [done|]. intros [= ?]. done.
  - intros oid' Hne. apply get_products_for_order_ext; [done..|].
    intros j. cbn [order_product]. rewrite elem_of_difference, elem_of_singleton.
    split; [tauto|]. intros ?. split; [done|]. intros [= ? ?]. done.
  - unfold remove_product_from_order, set_order_product.
    cbn [orders products]. rewrite Ho, Hp.
    rewrite product_in_order_spec by (cbn [products]; eauto).
    cbn [order_product]. rewrite bool_decide_eq_false_2; [done|].
    rewrite elem_of_difference, elem_of_singleton. tauto.
Qed.

(** X20: adding and removing a link undo each other. For an existing order
    and an existing product: when they are not linked, AddProductToOrder
    followed by RemoveProductFromOrder leaves the database exactly as it
    was; when they are linked, RemoveProductFromOrder followed by
    AddProductToOrder does. *)
Theorem add_and_remove_cancel oid pid s :
  is_Some (orders s !! oid) → is_Some (products s !! pid) →
  ((oid, pid) ∉ order_product s →
   (remove_product_from_order oid pid (add_product_to_order oid pid s).1).1 = s)
  ∧ ((oid, pid) ∈ order_product s →
     (add_product_to_order oid pid (remove_product_from_order oid pid s).1).1 = s).
Proof.
  intros [o Ho] [p Hp]. split; intros Hl.
  - rewrite (add_product_to_order_fresh oid pid o s Ho (ltac:(eauto)) Hl).
    cbn [fst]. unfold remove_product_from_order, set_order_product.
    cbn [orders products]. rewrite Ho, Hp.
    rewrite product_in_order_spec by (cbn [products]; eauto).
    cbn [order_product].
    rewrite bool_decide_eq_true_2
      by (apply elem_of_union; left; by apply elem_of_singleton).
    cbn [fst users products orders order_product
         next_user_id next_product_id next_order_id].
    assert (({[(oid, pid)]} ∪ order_product s) ∖ {[(oid, pid)]} = order_product s)
      as ->.
    { apply set_eq. intros x.
      rewrite elem_of_difference, elem_of_union, elem_of_singleton.
      split; [tauto|]. intros Hx. split; [tauto|]. by intros ->. }
    by destruct s.
  - unfold remove_product_from_order. rewrite Ho, Hp.
    rewrite product_in_order_spec by eauto.
    rewrite bool_decide_eq_true_2 by done. cbn [fst].
    unfold add_product_to_order, insert_link, set_order_product.
    cbn [orders products]. rewrite Ho, Hp.
    rewrite product_in_order_spec by (cbn [products]; eauto).
    cbn [order_product].
    rewrite !bool_decide_eq_false_2
      by (rewrite elem_of_difference, elem_of_singleton; tauto).
    cbn [fst users products orders order_product
         next_user_id next_product_id next_order_id].
    assert ({[(oid, pid)]} ∪ order_product s ∖ {[(oid, pid)]} = order_product s)
      as ->.
    { apply set_eq. intros x.
      rewrite elem_of_union, elem_of_difference, elem_of_singleton.
      destruct (decide (x = (oid, pid))) as [->|?]; tauto. }
    by destruct s.
Qed.

End OrderRecords.

(** ** Orders: creation, listing and the deletion of their user *)

Section OrderLifecycle.
Context `{lib : FieldLib}.
Implicit Types (s : Store) (uid pid oid : Z).

(** The orders of a user depend on the rows of that user only. *)
Lemma orders_of_user_ext uid s s' :
  (∀ j o, user_id o = uid → orders s' !! j = Some o ↔ orders s !! j = Some o) →
  orders_of_user uid s' = orders_of_user uid s.
Proof.
  intros Hext. unfold orders_of_user. do 2 f_equal.
  apply map_filter_strong_ext. intros j o. simpl. split.
  - intros [Hu Ho]. split; [done|]. by apply Hext.
  - intros [Hu Ho]. split; [done|]. by apply Hext.
Qed.

(** A payload that loads through the order schema has an order_date and a
    user_id, and no product_ids. *)
Lemma OrderSchema_load_full kvs d :
  OrderSchema_load false (JObj kvs) = inr d →
  is_Some (od_order_date d) ∧ is_Some (od_user_id d)
  ∧ dict_get "product_ids" kvs = None.
Proof.
  intros (-> & Hd & Hu & Hunk)%OrderSchema_load_inr. simpl.
  split; [by apply load_field_required|]. split; [by apply load_field_required|].
  destruct (dict_get "product_ids" kvs) eqn:E; [|done]. exfalso.
  assert (("product_ids", "Unknown field.")
            ∈ unknown_fields ["id"; "order_date"; "user_id"] kvs) as Hin.
  { apply unknown_fields_elem; [by rewrite E|]. not_declared. }
  rewrite Hunk in Hin. by apply elem_of_nil in Hin.
Qed.

(** X21: CreateOrder on a request that passes the schema. Such a request has
    an order_date and a user_id. When the user_id names no user, nothing is
    written: if the INTEGER column can hold the value, the commit fails on
    the foreign key and the answer is 400 "Invalid user_id or foreign key
    constraint failed"; if it cannot, the engine's error is not the
    IntegrityError the handler catches and the answer is a 500. When the
    user exists (and the database satisfies its constraints), the answer is
    201 with an order of that date and user under an id that was not in use;
    the order has no products, ListOrdersForUser for the user returns the
    new order and exactly the orders it returned before, and the lists of
    the other users are unchanged. *)
Theorem create_order_plain utcnow kvs d s :
  OrderSchema_load false (JObj kvs) = inr d →
  let r := create_order utcnow (JObj kvs) s in
  let id := next_order_id s in
  ∃ t uid, od_order_date d = Some t ∧ od_user_id d = Some uid
    ∧ (users s !! uid = None → integer_fits uid = true →
       r = (s, (Message "Invalid user_id or foreign key constraint failed", 400)))
    ∧ (users s !! uid = None → integer_fits uid = false →
       r.1 = s ∧ r.2.2 = 500)
    ∧ (is_Some (users s !! uid) → store_ok s →
       r.2 = (OrderJson id (mkOrder t uid), 201)
       ∧ orders s !! id = None
       ∧ orders r.1 !! id = Some (mkOrder t uid)
       ∧ get_products_for_order id r.1 = (ProductsJson [], 200)
       ∧ (∃ l, get_orders_for_user uid r.1 = (OrdersJson l, 200)
               ∧ ∀ j o, (j, o) ∈ l
                        ↔ (j = id ∧ o = mkOrder t uid)
                          ∨ (orders s !! j = Some o ∧ user_id o = uid))
       ∧ ∀ uid', uid' ≠ uid →
           get_orders_for_user uid' r.1 = get_orders_for_user uid' s).
Proof.
  intros Hl. cbv zeta.
  destruct (OrderSchema_load_full kvs d Hl) as ([t Ht] & [uid Hu] & Hnone).
  exists t, uid. split; [done|]. split; [done|].
  assert (create_order utcnow (JObj kvs) s
          = match users s !! uid with
            | None =>
                if integer_fits uid
                then (s, (Message "Invalid user_id or foreign key constraint failed", 400))
                else (s, raise "DataError")
            | Some _ => (insert_order (mkOrder t uid) [] s,
                         (OrderJson (next_order_id s) (mkOrder t uid), 201))
            end) as ->.
  { unfold create_order. rewrite py_or_obj, Hl. unfold create_order_loaded.
    rewrite Hu, Ht. simpl json_get. rewrite Hnone. simpl.
    unfold commit_order. simpl.
    destruct (users s !! uid); [done|]. by destruct (integer_fits uid). }
  split; [by intros -> ->|]. split; [by intros -> ->|].
  intros [u Hex] Hok. rewrite Hex. cbn [fst snd].
  assert (orders s !! next_order_id s = None) as Hfresh.
  { destruct (orders s !! next_order_id s) eqn:E; [|done].
    pose proof (ok_next_order s Hok (next_order_id s) ltac:(eauto)). lia. }
  assert (orders (insert_order (mkOrder t uid) [] s) !! next_order_id s
          = Some (mkOrder t uid)) as Hnew by apply lookup_insert_eq.
  split_and!; try done.
  - unfold get_products_for_order. rewrite Hnew. f_equal. f_equal.
    unfold order_products. apply map_to_list_empty_iff, map_empty. intros j.
    apply map_lookup_filter_None. right. intros q _. simpl.
    rewrite elem_of_union. intros [Hin|Hin].
    + by apply elem_of_empty in Hin.
    + destruct (ok_link_order s Hok _ _ Hin) as [? ?]. congruence.
  - eexists. split; [reflexivity|]. intros j o.
    rewrite orders_of_user_elem. unfold insert_order. cbn [orders].
    rewrite lookup_insert_Some. split.
    + intros [[[<- <-]|[? ?]] ?]; auto.
    + intros [[-> ->]|[Ho ?]]; [auto|]. split; [|done]. right. split; [|done].
      intros <-. congruence.
  - intros uid' Hne. unfold get_orders_for_user. do 2 f_equal.
    apply orders_of_user_ext. intros j o Huid. unfold insert_order. cbn [orders].
    rewrite lookup_insert_Some. split; [|intros Ho; right; split; [|done]].
    + intros [[_ <-]|[_ ?]]; [|done]. simpl in Huid. congruence.
    + intros <-. congruence.
Qed.

(** X22: after DeleteUser the user has no orders left to list, and the rest
    is as it was. For an existing user, after the deletion ListOrdersForUser
    for that user returns the empty list, ListOrdersForUser for every other
    user and GetUser for every other id answer as before, the products table
    is untouched, and deleting the user again is answered 400 "Invalid user
    id". *)
Theorem delete_user_then_list uid s :
  is_Some (users s !! uid) →
  let r := delete_user uid s in
  get_orders_for_user uid r.1 = (OrdersJson [], 200)
  ∧ (∀ uid', uid' ≠ uid →
       get_orders_for_user uid' r.1 = get_orders_for_user uid' s)
  ∧ (∀ j, j ≠ uid → get_user j r.1 = get_user j s)
  ∧ products r.1 = products s
  ∧ delete_user uid r.1 = (r.1, (Message "Invalid user id", 400)).
Proof.
  intros [u Hu]. cbv zeta.
  assert (delete_user uid s
          = (delete_user_cascade uid s,
             (Message ("successfully deleted user " +:+ pretty uid), 200))) as ->
    by (unfold delete_user; by rewrite Hu).
  cbn [fst]. split_and!.
  - unfold get_orders_for_user. do 2 f_equal.
    destruct (orders_of_user uid (delete_user_cascade uid s)) as [|[j o] l] eqn:E;
      [done|].
    assert ((j, o) ∈ orders_of_user uid (delete_user_cascade uid s)) as Hin
      by (rewrite E; left).
    apply orders_of_user_elem in Hin as [Ho Huid].
    unfold delete_user_cascade in Ho. cbn [orders] in Ho.
    apply map_lookup_filter_Some in Ho as [_ Hne]. done.
  - intros uid' Hne. unfold get_orders_for_user. do 2 f_equal.
    apply orders_of_user_ext. intros j o Huid.
    unfold delete_user_cascade. cbn [orders].
    rewrite map_lookup_filter_Some. simpl. split; [tauto|].
    intros Ho. split; [done|]. congruence.
  - intros j Hj. unfold get_user, delete_user_cascade. cbn [users].
    by rewrite lookup_delete_ne.
  - done.
  - unfold delete_user, delete_user_cascade. cbn [users].
    by rewrite lookup_delete_eq.
Qed.


End OrderLifecycle.

(** ** The further properties on the sample database *)

Lemma sample_rows_valid : rows_valid (lib := sample_lib) sample_store.
Proof.
  split; unfold sample_store; simpl.
  - intros i u. rewrite !lookup_insert_Some, !lookup_empty.
    intros [[_ <-]|[_ [[_ <-]|[_ ?]]]]; [| |done].
    + split_and!; [simpl; lia|reflexivity|]. by intros a [= <-].
    + split_and!; [simpl; lia|reflexivity|]. by intros a [=].
  - intros i p. rewrite !lookup_insert_Some, !lookup_empty.
    intros [[_ <-]|[_ [[_ <-]|[_ ?]]]]; [| |done]; (split; [simpl; lia|done]).
Qed.

(** Bob gets a new name; the rows are still valid. *)
Lemma handlers_keep_rows_valid_witness :
  rows_valid (lib := sample_lib)
    (update_user (lib := sample_lib) 2 (JObj [("name", JStr "Robert")]) sample_store).1.
Proof.
  destruct (handlers_keep_rows_valid (lib := sample_lib) sample_store)
    as (_ & Hupd & _).
  - apply sample_rows_valid.
  - apply Hupd.
Defined.

(** Ada's email is taken: the request fails and writes nothing. *)
Lemma failure_leaves_store_witness :
  (create_user (lib := sample_lib)
     (JObj [("name", JStr "Eve"); ("email", JStr "ada@example.org")]) sample_store).1
  = sample_store.
Proof.
  destruct (failure_leaves_store (lib := sample_lib) sample_store) as (Hc & _).
  apply Hc. by vm_compute.
Defined.

(** A request without a name. *)
Lemma create_user_validation_witness :
  ∃ e, create_user (lib := sample_lib) (JObj [("email", JStr "eve@example.org")])
         sample_store = (sample_store, (Errors e, 400))
       ∧ ("name", "Missing data for required field.") ∈ e.
Proof.
  destruct (create_user_validation (lib := sample_lib)
              [("email", JStr "eve@example.org")] sample_store) as (Hn & _).
  apply Hn. reflexivity.
Defined.

(** A request with a role key, which the user schema does not declare. *)
Lemma user_unknown_key_refused_witness :
  ∃ e, update_user (lib := sample_lib) 1 (JObj [("role", JStr "admin")])
         sample_store = (sample_store, (Errors e, 400))
       ∧ ("role", "Unknown field.") ∈ e.
Proof.
  destruct (user_unknown_key_refused (lib := sample_lib) "role"
              [("role", JStr "admin")] sample_store) as (_ & Hu).
  - by eexists.
  - not_declared.
  - apply Hu. by eexists.
Defined.

(** Eve registers, with an address. *)
Lemma create_user_round_trip_witness :
  let kvs := [("name", JStr "Eve"); ("email", JStr "eve@example.org");
              ("address", JStr "1 Quay")] in
  get_user 3 (create_user (lib := sample_lib) (JObj kvs) sample_store).1
  = (UserJson 3 (mkUser "Eve" (Some "1 Quay") "eve@example.org"), 200).
Proof.
  intros kvs.
  destruct (create_user_round_trip (lib := sample_lib) kvs
              (mkUserData None (Some "Eve") (Some (Some "1 Quay"))
                          (Some "eve@example.org"))
              "Eve" "eve@example.org" sample_store)
    as (u & Hn & He & Ha & _ & _ & _ & Hget & _).
  - apply sample_store_ok.
  - reflexivity.
  - reflexivity.
  - reflexivity.
  - apply sample_no_eve.
  - etrans; [exact Hget|]. destruct u as [n a e]. simpl in *.
    by rewrite Hn, He, (Ha "1 Quay" eq_refl).
Defined.

(** Bob changes his name and clears his address. *)
Lemma update_user_sets_supplied_witness :
  ∃ u', get_user 2 (update_user (lib := sample_lib) 2
                      (JObj [("name", JStr "Robert"); ("address", JNull)])
                      sample_store).1 = (UserJson 2 u', 200)
        ∧ name u' = "Robert" ∧ address u' = None.
Proof.
  destruct (update_user_sets_supplied (lib := sample_lib) 2 bob
              [("name", JStr "Robert"); ("address", JNull)]
              (mkUserData None (Some "Robert") (Some None) None) sample_store)
    as (u' & _ & Hget & Hn & _ & _ & Ha).
  - reflexivity.
  - reflexivity.
  - intros em [=].
  - exists u'. split; [done|]. split; [by apply Hn|by apply Ha].
Defined.

(** Bob asks for Ada's email. *)
Lemma update_user_email_taken_witness :
  update_user (lib := sample_lib) 2 (JObj [("email", JStr "ada@example.org")])
    sample_store
  = (sample_store, (Message "Email already exists", 400)).
Proof.
  apply (update_user_email_taken (lib := sample_lib) 2 1 bob ada
           [("email", JStr "ada@example.org")]
           (mkUserData None None None (Some "ada@example.org")) sample_store).
  - apply sample_emails_unique.
  - reflexivity.
  - reflexivity.
  - done.
  - reflexivity.
  - reflexivity.
Defined.

(** The pen is repriced twice with the same request. *)
Lemma update_twice_is_update_once_witness :
  let request := JObj [("price", JInt 2)] in
  let r := update_product (lib := sample_lib) 1 request sample_store in
  update_product (lib := sample_lib) 1 request r.1 = r.
Proof.
  destruct (update_twice_is_update_once (lib := sample_lib)) as [_ Hp].
  apply Hp.
Defined.

(** A product at minus one. *)
Lemma product_price_checked_witness :
  ∃ e, create_product (lib := sample_lib)
         (JObj [("product_name", JStr "cap"); ("price", JInt (-1))]) sample_store
       = (sample_store, (Errors e, 400))
       ∧ ("price", "Price must be non-negative.") ∈ e.
Proof.
  destruct (product_price_checked (lib := sample_lib)
              [("product_name", JStr "cap"); ("price", JInt (-1))]
              (JInt (-1)) (inject_Z (-1)) sample_store) as (Hc & _).
  - reflexivity.
  - done.
  - reflexivity.
  - reflexivity.
  - exact Hc.
Defined.

(** A product at zero is accepted. *)
Lemma create_product_round_trip_witness :
  let kvs := [("product_name", JStr "cap"); ("price", JInt 0)] in
  get_product 3 (create_product (lib := sample_lib) (JObj kvs) sample_store).1
  = (ProductJson 3 (mkProduct "cap" 0), 200).
Proof.
  intros kvs.
  destruct (create_product_round_trip (lib := sample_lib) kvs
              (mkProductData None (Some "cap") (Some 0%Q)) "cap" (JInt 0)
              sample_store)
    as (p & Hn & Hq & _ & _ & _ & Hget & _).
  - apply sample_store_ok.
  - reflexivity.
  - reflexivity.
  - reflexivity.
  - etrans; [exact Hget|]. destruct p as [n q]. simpl in *.
    injection Hq as <-. by rewrite Hn.
Defined.

(** The pen is repriced; its name stays. *)
Lemma update_product_partial_witness :
  ∃ p', get_product 1 (update_product (lib := sample_lib) 1
                         (JObj [("price", JInt 2)]) sample_store).1
        = (ProductJson 1 p', 200)
        ∧ product_name p' = "pen".
Proof.
  destruct (update_product_partial (lib := sample_lib) 1 pen
              [("price", JInt 2)] (mkProductData None None (Some 2%Q)) sample_store)
    as (p' & _ & Hget & Hn & _).
  - reflexivity.
  - reflexivity.
  - exists p'. split; [done|]. by apply Hn.
Defined.

(** Ink, which is on orders 1 and 3, is deleted. *)
Lemma delete_product_cascades_witness :
  let r := delete_product 2 sample_store in
  ((1, 2) ∉ order_product r.1) ∧ ((3, 2) ∉ order_product r.1)
  ∧ (1, 1) ∈ order_product r.1.
Proof.
  destruct (delete_product_cascades 2 sample_store) as (_ & _ & Hgone & Hrest & _).
  - by eexists.
  - cbv zeta. split; [apply Hgone|]. split; [apply Hgone|].
    apply Hrest; [done|]. unfold sample_store. simpl.
    rewrite !elem_of_union, !elem_of_singleton. by left; left.
Defined.

Lemma sample_no_link_2_1 : (2, 1) ∉ order_product sample_store.
Proof.
  unfold sample_store. simpl. rewrite !elem_of_union, !elem_of_singleton.
  intros [[[=]|[=]]|[=]].
Qed.

Lemma sample_link_1_1 : (1, 1) ∈ order_product sample_store.
Proof.
  unfold sample_store. simpl. rewrite !elem_of_union, !elem_of_singleton.
  by left; left.
Qed.

(** The pen is put on order 2. *)
Lemma add_product_to_order_adds_witness :
  let r := add_product_to_order 2 1 sample_store in
  r.2 = (OrderJson 2 (mkOrder 300 1), 200)
  ∧ get_products_for_order 1 r.1 = get_products_for_order 1 sample_store.
Proof.
  destruct (add_product_to_order_adds 2 1 (mkOrder 300 1) sample_store)
    as (Hr & _ & _ & Hother & _).
  - reflexivity.
  - by eexists.
  - apply sample_no_link_2_1.
  - cbv zeta. split; [done|]. by apply Hother.
Defined.

(** The pen is taken off order 1. *)
Lemma remove_product_from_order_removes_witness :
  let r := remove_product_from_order 1 1 sample_store in
  r.2 = (OrderJson 1 (mkOrder 100 1), 200)
  ∧ remove_product_from_order 1 1 r.1 = (r.1, (Message "Product not in order", 404)).
Proof.
  destruct (remove_product_from_order_removes 1 1 (mkOrder 100 1) sample_store)
    as (Hr & _ & _ & _ & _ & _ & _ & Hagain).
  - reflexivity.
  - by eexists.
  - apply sample_link_1_1.
  - by split.
Defined.

(** The pen is put on order 2 and taken off again. *)
Lemma add_and_remove_cancel_witness :
  (remove_product_from_order 2 1 (add_product_to_order 2 1 sample_store).1).1
  = sample_store.
Proof.
  destruct (add_and_remove_cancel 2 1 sample_store) as [Har _].
  - by eexists.
  - by eexists.
  - apply Har, sample_no_link_2_1.
Defined.

(** An order for Bob, an order for user 7, who does not exist, and an order
    for a user_id that a signed 64-bit column cannot hold. *)
Lemma create_order_plain_witness :
  let body uid := JObj [("user_id", JInt uid);
                        ("order_date", JStr "2025-09-01T09:00:00")] in
  (create_order (lib := sample_lib) 1000 (body 2) sample_store).2
  = (OrderJson 4 (mkOrder 1756717200 2), 201)
  ∧ create_order (lib := sample_lib) 1000 (body 7) sample_store
    = (sample_store, (Message "Invalid user_id or foreign key constraint failed", 400))
  ∧ (create_order (lib := sample_lib) 1000 (body (2 ^ 63)) sample_store).2.2 = 500.
Proof.
  cbv zeta. split; [|split].
  - destruct (create_order_plain (lib := sample_lib) 1000
                [("user_id", JInt 2); ("order_date", JStr "2025-09-01T09:00:00")]
                (mkOrderData None (Some 1756717200) (Some 2)) sample_store eq_refl)
      as (t & uid & [= <-] & [= <-] & _ & _ & Hok).
    destruct (Hok ltac:(by eexists) sample_store_ok) as (Hr & _). exact Hr.
  - destruct (create_order_plain (lib := sample_lib) 1000
                [("user_id", JInt 7); ("order_date", JStr "2025-09-01T09:00:00")]
                (mkOrderData None (Some 1756717200) (Some 7)) sample_store eq_refl)
      as (t & uid & _ & [= <-] & Hfail & _).
    by apply Hfail.
  - destruct (create_order_plain (lib := sample_lib) 1000
                [("user_id", JInt (2 ^ 63)); ("order_date", JStr "2025-09-01T09:00:00")]
                (mkOrderData None (Some 1756717200) (Some (2 ^ 63))) sample_store eq_refl)
      as (t & uid & _ & [= <-] & _ & Hrange & _).
    by apply Hrange.
Defined.

(** Ada is deleted; Bob's order is still listed. *)
Lemma delete_user_then_list_witness :
  let r := delete_user 1 sample_store in
  get_orders_for_user 1 r.1 = (OrdersJson [], 200)
  ∧ get_orders_for_user 2 r.1 = (OrdersJson [(3, mkOrder 200 2)], 200).
Proof.
  destruct (delete_user_then_list 1 sample_store) as (Hnone & Hother & _).
  - by eexists.
  - cbv zeta. split; [done|]. by rewrite Hother.
Defined.

